(** * filter_fasta_by_list.py: accession normalisation and matching

    A shallow embedding of [bin/filter_fasta_by_list.py] and the proofs of
    the properties its specification states.

    Python text is a sequence of Unicode code points: a character is a code
    point ([N]) and a [str] is a list of them.  The Unicode classification
    tables of the Python runtime ([str.isspace], the decimal digits of the
    regular expression class [\d], [str.isalpha]) are not part of the
    program; they are taken through the interface [PyUnicode], which fixes
    them on ASCII and keeps only the facts the program relies on elsewhere.
    Sets of strings are [gset]s; exceptions are an error monad. *)

From Stdlib Require Import NArith Ascii String DecimalString.
From stdpp Require Import base option list gmap sets.

Local Open Scope N_scope.
Local Open Scope list_scope.

(** ** Characters and strings *)

Abbreviation char := N (only parsing).
Abbreviation str := (list N) (only parsing).

(** The code point of an ASCII character, and the [str] of an ASCII literal. *)
Definition ch (a : ascii) : char := N_of_ascii a.
Definition py (s : string) : str := map ch (list_ascii_of_string s).
Arguments ch : simpl never.

Definition in_range (lo hi : ascii) (c : char) : bool :=
  (ch lo <=? c) && (c <=? ch hi).

Definition is_char (a : ascii) (c : char) : bool := c =? ch a.

(** The class [[A-Z]]. *)
Definition upper (c : char) : bool := in_range "A" "Z" c.

(** What CPython answers on the ASCII range. *)
Definition ascii_isspace (c : char) : bool :=
  ((9 <=? c) && (c <=? 13)) || ((28 <=? c) && (c <=? 32)).
Definition ascii_isdecimal (c : char) : bool := in_range "0" "9" c.
Definition ascii_isalpha (c : char) : bool :=
  in_range "A" "Z" c || in_range "a" "z" c.

(** The Unicode database of the runtime. *)
Class PyUnicode := {
  isspace : char -> bool;
  isdecimal : char -> bool;
  isalpha_char : char -> bool;
  isspace_ascii : forall c, c < 128 -> isspace c = ascii_isspace c;
  isdecimal_ascii : forall c, c < 128 -> isdecimal c = ascii_isdecimal c;
  isalpha_ascii : forall c, c < 128 -> isalpha_char c = ascii_isalpha c;
  isdecimal_not_isspace : forall c, isdecimal c = true -> isspace c = false
}.

(** The database cut down to ASCII: every other code point is unclassified. *)
Definition below128 (f : char -> bool) (c : char) : bool := (c <? 128) && f c.

#[export, refine] Instance ascii_tables : PyUnicode := {|
  isspace := below128 ascii_isspace;
  isdecimal := below128 ascii_isdecimal;
  isalpha_char := below128 ascii_isalpha
|}.
Proof.
  - intros c Hc. unfold below128. apply N.ltb_lt in Hc. now rewrite Hc.
  - intros c Hc. unfold below128. apply N.ltb_lt in Hc. now rewrite Hc.
  - intros c Hc. unfold below128. apply N.ltb_lt in Hc. now rewrite Hc.
  - intros c. unfold below128, ascii_isdecimal, ascii_isspace, in_range, ch.
    cbn. intros H.
    apply andb_true_iff in H as [Hlt H]. apply andb_true_iff in H as [H1 H2].
    rewrite Hlt. cbn.
    apply N.leb_le in H1, H2.
    apply orb_false_iff. split; apply andb_false_iff; right; apply N.leb_gt; lia.
Defined.

(** ** Exceptions *)

Inductive exn := IndexError | OSError.

Inductive res (A : Type) : Type :=
| Ok (a : A)
| Raise (e : exn).
Arguments Ok {A} a.
Arguments Raise {A} e.

#[export] Instance res_ret : MRet res := fun A a => Ok a.
#[export] Instance res_bind : MBind res := fun A B f m =>
  match m with
  | Ok a => f a
  | Raise e => Raise e
  end.

(** [l[i]] *)
Definition index {A} (l : list A) (i : nat) : res A :=
  match l !! i with
  | Some a => Ok a
  | None => Raise IndexError
  end.

(** ** The string methods the program calls *)

Section Builtins.
Context {U : PyUnicode}.

Fixpoint take_while {A} (f : A -> bool) (s : list A) : list A :=
  match s with
  | [] => []
  | c :: s' => if f c then c :: take_while f s' else []
  end.

Fixpoint drop_while {A} (f : A -> bool) (s : list A) : list A :=
  match s with
  | [] => []
  | c :: s' => if f c then drop_while f s' else s
  end.

(** [s.startswith(p)] *)
Fixpoint startswith (s p : str) : bool :=
  match p, s with
  | [], _ => true
  | a :: p', b :: s' => (b =? a) && startswith s' p'
  | _ :: _, [] => false
  end.

(** [s.lstrip(..)], [s.rstrip(..)], [s.strip(..)] for the characters of a
    class: the left end first, then the right end of what is left. *)
Definition lstrip_by (f : char -> bool) (s : str) : str := drop_while f s.
Definition rstrip_by (f : char -> bool) (s : str) : str :=
  rev (drop_while f (rev s)).
Definition strip_by (f : char -> bool) (s : str) : str :=
  rstrip_by f (lstrip_by f s).

(** [s.strip()] *)
Definition strip (s : str) : str := strip_by isspace s.

(** [s.replace(a, b)] for single characters *)
Definition replace (a b : ascii) (s : str) : str :=
  map (fun c => if is_char a c then ch b else c) s.

(** [a in s] for a single character *)
Definition contains (a : ascii) (s : str) : bool := existsb (is_char a) s.

(** [s.split()]: the maximal runs of non-whitespace. [cur] is the run
    being read. *)
Fixpoint split_ws_from (cur s : str) : list str :=
  match s with
  | [] => match cur with [] => [] | _ => [cur] end
  | c :: s' =>
      if isspace c then
        match cur with
        | [] => split_ws_from [] s'
        | _ => cur :: split_ws_from [] s'
        end
      else split_ws_from (cur ++ [c]) s'
  end.
Definition split (s : str) : list str := split_ws_from [] s.

(** [s.split(sep)] for a single character: never empty. *)
Fixpoint split_on_from (sep : ascii) (cur s : str) : list str :=
  match s with
  | [] => [cur]
  | c :: s' =>
      if is_char sep c then cur :: split_on_from sep [] s'
      else split_on_from sep (cur ++ [c]) s'
  end.
Definition split_on (sep : ascii) (s : str) : list str :=
  split_on_from sep [] s.

(** [s.isalpha()] *)
Definition isalpha (s : str) : bool :=
  match s with
  | [] => false
  | _ => forallb isalpha_char s
  end.

End Builtins.

(** ** The regular expressions of the program

    The patterns of the program are sequences of greedy repetitions of one
    character class, [^] and [$].  [match_here] is the backtracking matcher
    of [re]: a repetition first takes as many characters as it can and
    gives them back one at a time while the rest of the pattern fails. *)

Inductive node :=
| Repeat (cls : char -> bool) (lo : nat) (hi : option nat)
| AtBeginning
| AtEnd.

Abbreviation pattern := (list node).

Definition One (cls : char -> bool) : node := Repeat cls 1 (Some 1%nat).
Definition Plus (cls : char -> bool) : node := Repeat cls 1 None.

Section Regex.
Context {U : PyUnicode}.

(** The most characters a repetition can take at the head of [s]. *)
Definition greedy (cls : char -> bool) (hi : option nat) (s : str) : nat :=
  let n := length (take_while cls s) in
  match hi with
  | Some h => Nat.min h n
  | None => n
  end.

(** Try the rest of the pattern, [k], after [n], [n - 1], ..., [lo]
    characters. *)
Fixpoint give_back (k : nat -> option str) (lo n : nat) (s : str)
  : option str :=
  if (n <? lo)%nat then None
  else match k n with
       | Some m => Some (take n s ++ m)
       | None =>
           match n with
           | O => None
           | S n' => give_back k lo n' s
           end
       end.

(** [$] without [re.MULTILINE]: the end of the string, or just before a
    newline that ends it. *)
Definition at_end (s : str) : bool :=
  match s with
  | [] => true
  | [c] => is_char "010" c
  | _ => false
  end.

(** The text matched at the head of [s], which is at index [pos]. *)
Fixpoint match_here (p : pattern) (pos : nat) (s : str) : option str :=
  match p with
  | [] => Some []
  | Repeat cls lo hi :: p' =>
      give_back (fun n => match_here p' (pos + n) (drop n s))
                lo (greedy cls hi s) s
  | AtBeginning :: p' =>
      if (pos =? 0)%nat then match_here p' pos s else None
  | AtEnd :: p' =>
      if at_end s then match_here p' pos s else None
  end.

Fixpoint search_from (p : pattern) (pos : nat) (s : str) : option str :=
  match match_here p pos s with
  | Some m => Some m
  | None =>
      match s with
      | [] => None
      | _ :: s' => search_from p (S pos) s'
      end
  end.

(** [p.search(s)] and [re.match(p, s)], as [m.group(0)]. *)
Definition re_search (p : pattern) (s : str) : option str := search_from p 0 s.
Definition re_match (p : pattern) (s : str) : option str := match_here p 0 s.

(** [re.compile(r"[A-Z]{1,3}_\d+\.\d+")] *)
Definition ACCESSION_RE : pattern :=
  [ Repeat upper 1 (Some 3%nat);
    One (is_char "_");
    Plus isdecimal;
    One (is_char ".");
    Plus isdecimal ].

(** [r"^\d+\.\d+$"] *)
Definition VERSIONED_NUMBER_RE : pattern :=
  [ AtBeginning; Plus isdecimal; One (is_char "."); Plus isdecimal; AtEnd ].

End Regex.

(** ** The files of a run and the effects of the program

    A run reads and writes files and prints to the two standard streams.
    A file is the list of its lines, as iterating over it gives them.  A
    path is not a file: [file_of] gives the file that a path names, and two
    paths may name one file ([v.fasta] and [./v.fasta], or a link), so
    [files] is keyed by the file and not by the path that opened it.
    [open(path, "r")] raises [OSError] for a path that names no file or that
    may not be read; [open(path, "w")] raises it for a path that may not be
    written, and creates or empties the file that the path names otherwise.
    An exception leaves the world as it was when it was raised. *)

Record world := World {
  files : gmap str (list str);
  file_of : str -> str;
  readable : str -> bool;
  writable : str -> bool;
  stdout : list str;
  stderr : list str
}.

Definition io (A : Type) : Type := world -> res A * world.

#[export] Instance io_ret : MRet io := fun A a w => (Ok a, w).
#[export] Instance io_bind : MBind io := fun A B f m w =>
  match m w with
  | (Ok a, w') => f a w'
  | (Raise e, w') => (Raise e, w')
  end.

Definition lift {A} (r : res A) : io A := fun w => (r, w).

Inductive handle := Stdout | Stderr | File (file : str).

Definition open_r (path : str) : io (list str) := fun w =>
  match files w !! file_of w path with
  | Some content =>
      if readable w path then (Ok content, w) else (Raise OSError, w)
  | None => (Raise OSError, w)
  end.

Definition open_w (path : str) : io handle := fun w =>
  if writable w path
  then (Ok (File (file_of w path)),
        World (<[file_of w path := []]> (files w)) (file_of w)
              (readable w) (writable w) (stdout w) (stderr w))
  else (Raise OSError, w).

(** The world after [line] is written to [h]. *)
Definition write (h : handle) (line : str) (w : world) : world :=
  match h with
  | Stdout =>
      World (files w) (file_of w) (readable w) (writable w)
            (stdout w ++ [line]) (stderr w)
  | Stderr =>
      World (files w) (file_of w) (readable w) (writable w)
            (stdout w) (stderr w ++ [line])
  | File file =>
      World (alter (fun content => content ++ [line]) file (files w))
            (file_of w) (readable w) (writable w) (stdout w) (stderr w)
  end.

(** [print(text, file=h)] *)
Definition print (text : str) (h : handle) : io unit := fun w =>
  (Ok tt, write h (text ++ [ch "010"]) w).

(** A [for] loop whose body updates the local state [s]. *)
Fixpoint for_each {M : Type -> Type} `{!MBind M, !MRet M} {A S : Type}
  (body : A -> S -> M S) (l : list A) (s : S) : M S :=
  match l with
  | [] => mret s
  | a :: l' => s' ← body a s; for_each body l' s'
  end.

(** Truth value of a string or a list. *)
Definition truthy {A} (l : list A) : bool :=
  match l with
  | [] => false
  | _ :: _ => true
  end.

(** [range(0, stop, step)] *)
Definition range0 (stop step : nat) : list nat :=
  map (fun k => k * step)%nat (seq 0 (Nat.div (stop + step - 1) step)).

(** [str(n)] for a count *)
Definition decimal (n : nat) : str :=
  py (DecimalString.NilEmpty.string_of_uint (Nat.to_uint n)).

(** ** The program *)

Section Program.
Context {U : PyUnicode}.

(** The two sets of [parse_targets]: [with_version] and [no_version]. *)
Definition targets : Type := gset str * gset str.

Definition no_targets : targets := (∅, ∅).

(** The helper [_add] of [parse_targets]; it updates the two sets. *)
Definition _add (acc : str) (t : targets) : res targets :=
  let '(with_version, no_version) := t in
  let acc := strip acc in
  if negb (truthy acc) then mret t
  else
    let acc := replace " " "_" acc in
    let acc :=
      if contains "|" acc then
        match re_search ACCESSION_RE acc with
        | Some m => m
        | None => acc
        end
      else acc in
    let acc :=
      match re_search ACCESSION_RE acc with
      | Some m => m
      | None => acc
      end in
    if contains "." acc then
      nv ← index (split_on "." acc) 0;
      mret (with_version ∪ {[ acc ]}, no_version ∪ {[ nv ]})
    else mret (with_version, no_version ∪ {[ acc ]}).

(** The body of the loop of [parse_targets] over the lines of the list. *)
Definition parse_targets_line (raw : str) (t : targets) : res targets :=
  let line := strip raw in
  if negb (truthy line) || startswith line (py "#") then mret t
  else
    match re_search ACCESSION_RE (replace " " "_" line) with
    | Some m => _add m t
    | None =>
        let toks := split line in
        joinable ←
          (if (2 <=? length toks)%nat then
             t0 ← index toks 0;
             if isalpha t0 then
               t1 ← index toks 1;
               mret (bool_decide (is_Some (re_match VERSIONED_NUMBER_RE t1)))
             else mret false
           else mret false);
        if joinable : bool then
          t0 ← index toks 0;
          t1 ← index toks 1;
          _add (t0 ++ py "_" ++ t1) t
        else if truthy toks then
          t0 ← index toks 0;
          _add t0 t
        else mret t
    end.

Definition parse_targets (list_path : str) : io targets :=
  fh ← open_r list_path;
  lift (for_each parse_targets_line fh no_targets).

(** The local state of the generator [fasta_records], with what it has
    yielded so far. *)
Record reader := Reader {
  header : option str;
  seq_parts : list str;
  yielded : list (str * str)
}.

Definition fasta_records_line (line : str) (r : reader) : reader :=
  if startswith line (py ">") then
    Reader (Some (rstrip_by (is_char "010") line)) []
           (match header r with
            | Some h => yielded r ++ [(h, concat (seq_parts r))]
            | None => yielded r
            end)
  else Reader (header r) (seq_parts r ++ [strip line]) (yielded r).

Definition fasta_records (stream : list str) : list (str * str) :=
  let r := fold_left (fun r line => fasta_records_line line r) stream
                     (Reader None [] []) in
  match header r with
  | Some h => yielded r ++ [(h, concat (seq_parts r))]
  | None => yielded r
  end.

Definition extract_header_accession (header : str)
  : res (option str * option str) :=
  let h := if startswith header (py ">") then drop 1 header else header in
  match re_search ACCESSION_RE h with
  | Some acc =>
      nv ← index (split_on "." acc) 0;
      mret (Some acc, Some nv)
  | None =>
      tok ← (if truthy (split h) then index (split h) 0 else mret []);
      let tok := strip_by (is_char "|") tok in
      let tok := replace " " "_" tok in
      match re_search ACCESSION_RE tok with
      | Some acc =>
          nv ← index (split_on "." acc) 0;
          mret (Some acc, Some nv)
      | None => mret (None, None)
      end
  end.

(** Truth value of an [Optional[str]]. *)
Definition truthy_opt (o : option str) : bool :=
  match o with
  | Some s => truthy s
  | None => false
  end.

(** [a and a in s] *)
Definition present_in (a : option str) (s : gset str) : bool :=
  match a with
  | Some acc => truthy acc && bool_decide (acc ∈ s)
  | None => false
  end.

(** The value of [match] for one record in the loop of [filter_fasta]. *)
Definition record_match (ignore_version : bool) (t : targets) (header : str)
  : res bool :=
  '(acc_wv, acc_nv) ← extract_header_accession header;
  if present_in acc_wv t.1 then mret true
  else if ignore_version && present_in acc_nv t.2 then mret true
  else mret false.

(** The body of the loop of [filter_fasta]; the local state is
    [(kept, total)]. *)
Definition filter_fasta_record (ignore_version : bool) (t : targets)
  (out_fh : handle) (record : str * str) (counts : nat * nat)
  : io (nat * nat) :=
  let '(header, sequence) := record in
  let '(kept, total) := counts in
  let total := (total + 1)%nat in
  matched ← lift (record_match ignore_version t header);
  if matched : bool then
    let kept := (kept + 1)%nat in
    _ ← print header out_fh;
    _ ← for_each (fun i (_ : unit) => print (take 60 (drop i sequence)) out_fh)
                 (range0 (length sequence) 60) tt;
    mret (kept, total)
  else mret (kept, total).

(** [sys.stdout if not out_path or out_path == "-" else open(out_path, "w")] *)
Definition open_out (out_path : option str) : io handle :=
  match out_path with
  | Some p =>
      if negb (truthy p) || bool_decide (p = py "-")
      then mret Stdout else open_w p
  | None => mret Stdout
  end.

Definition filter_fasta (fasta_path list_path : str) (out_path : option str)
  (ignore_version : bool) : io (nat * nat) :=
  t ← parse_targets list_path;
  out_fh ← open_out out_path;
  fh ← open_r fasta_path;
  for_each (filter_fasta_record ignore_version t out_fh)
           (fasta_records fh) (0, 0)%nat.

(** The parsed command line. *)
Record namespace := Namespace {
  arg_fasta : str;
  arg_list : str;
  arg_out : str;
  arg_ignore_version : bool
}.

Definition summary (kept total : nat) : str :=
  py "[filter_fasta_by_list] Kept " ++ decimal kept ++ py " / "
    ++ decimal total ++ py " records".

(** [main], after [parse_args]. *)
Definition main (args : namespace) : io Z :=
  '(kept, total) ← filter_fasta (arg_fasta args) (arg_list args)
                                (Some (arg_out args)) (arg_ignore_version args);
  _ ← print (summary kept total) Stderr;
  mret 0%Z.

End Program.

(** ** What a pattern matches

    The declarative reading of a pattern, against which the backtracking
    matcher is verified: [matches p pos s m] says that [m] is a prefix of
    [s] that [p] can match when [s] starts at index [pos]. *)

Definition within (hi : option nat) (j : nat) : Prop :=
  match hi with
  | Some h => (j <= h)%nat
  | None => True
  end.

Definition all_in (cls : char -> bool) (s : str) : Prop :=
  Forall (fun c => cls c = true) s.

Definition none_in (cls : char -> bool) (s : str) : Prop :=
  Forall (fun c => cls c = false) s.

Fixpoint matches (p : pattern) (pos : nat) (s m : str) : Prop :=
  match p with
  | [] => m = []
  | Repeat cls lo hi :: p' =>
      exists j m', (lo <= j)%nat /\ within hi j /\ (j <= length s)%nat
                   /\ all_in cls (take j s)
                   /\ matches p' (pos + j) (drop j s) m'
                   /\ m = take j s ++ m'
  | AtBeginning :: p' => pos = 0%nat /\ matches p' pos s m
  | AtEnd :: p' => at_end s = true /\ matches p' pos s m
  end.

Definition is_repeat (n : node) : bool :=
  match n with
  | Repeat _ _ _ => true
  | _ => false
  end.

(** A pattern without [^] and [$]. *)
Definition anchor_free (p : pattern) : bool := forallb is_repeat p.

(** [t] is a contiguous part of [s]. *)
Definition substring (t s : str) : Prop := exists a b, s = a ++ t ++ b.

Section Shapes.
Context {U : PyUnicode}.

(** The strings of the canonical form PREFIX_DIGITS.VERSION, with their
    parts: one to three capital letters, digits and version digits. *)
Definition accession_parts (P D V : str) : Prop :=
  (1 <= length P <= 3)%nat /\ all_in upper P
  /\ D <> [] /\ all_in isdecimal D
  /\ V <> [] /\ all_in isdecimal V.

Definition accession (P D V : str) : str := P ++ py "_" ++ D ++ py "." ++ V.

Definition canonical (acc : str) : Prop :=
  exists P D V, accession_parts P D V /\ acc = accession P D V.

(** The strings [\d+\.\d+]. *)
Definition versioned_number (t : str) : Prop :=
  exists D V, D <> [] /\ all_in isdecimal D /\ V <> [] /\ all_in isdecimal V
              /\ t = D ++ py "." ++ V.

End Shapes.

(** ** The accession matcher as the specification words it *)

Section MatcherSpec.
Context {U : PyUnicode}.

(** What comes before the first [sep]; the whole string when it has none. *)
Definition before (sep : ascii) (s : str) : str :=
  take_while (fun c => negb (is_char sep c)) s.

Definition nonspace (c : char) : bool := negb (isspace c).

(** The header without its leading [>]. *)
Definition remainder (header : str) : str :=
  match header with
  | c :: h => if is_char ">" c then h else header
  | [] => []
  end.

(** The first whitespace-delimited token, empty when there is none. *)
Definition first_token (h : str) : str :=
  take_while nonspace (drop_while isspace h).

(** The token of the fallback, cleaned. *)
Definition fallback_token (h : str) : str :=
  replace " " "_" (strip_by (is_char "|") (first_token h)).

(** A match with its part before the first dot, or nothing. *)
Definition found (m : option str) : option str * option str :=
  match m with
  | Some acc => (Some acc, Some (before "." acc))
  | None => (None, None)
  end.

(** The two searches of the specification, in order. *)
Definition extract_spec (header : str) : option str * option str :=
  let h := remainder header in
  match re_search ACCESSION_RE h with
  | Some acc => found (Some acc)
  | None => found (re_search ACCESSION_RE (fallback_token h))
  end.

(** One search over the header without its leading [>]. *)
Definition search_header_only (header : str) : option str * option str :=
  found (re_search ACCESSION_RE (remainder header)).

(** An extracted accession is a member of a target set. *)
Definition member (a : option str) (s : gset str) : Prop :=
  exists acc, a = Some acc /\ acc ∈ s.

Definition memberb (a : option str) (s : gset str) : bool :=
  match a with
  | Some acc => bool_decide (acc ∈ s)
  | None => false
  end.

(** The matching decision for a header. *)
Definition matched (ignore_version : bool) (t : gset str * gset str)
  (header : str) : bool :=
  let '(wv, nv) := extract_spec header in
  memberb wv t.1 || (ignore_version && memberb nv t.2).

End MatcherSpec.

(** ** The record reader and the output as the specification words them *)

Section ReaderSpec.
Context {U : PyUnicode}.

Definition is_header (line : str) : bool := startswith line (py ">").

Definition sequence_line (line : str) : bool := negb (is_header line).

(** One record per header line: the header without its trailing newline,
    and the lines up to the next header, stripped and joined. *)
Fixpoint records_spec (stream : list str) : list (str * str) :=
  match stream with
  | [] => []
  | line :: rest =>
      if is_header line then
        (rstrip_by (is_char "010") line,
         concat (map strip (take_while sequence_line rest)))
          :: records_spec rest
      else records_spec rest
  end.

(** What the generator yields from the state [r] on. *)
Definition finish (r : reader) : list (str * str) :=
  match header r with
  | Some h => yielded r ++ [(h, concat (seq_parts r))]
  | None => yielded r
  end.

Definition read_from (r : reader) (stream : list str) : list (str * str) :=
  finish (fold_left (fun r line => fasta_records_line line r) stream r).

(** The world after a record that matches is written to [out_fh]. *)
Definition written (out_fh : handle) (record : str * str) (w : world) : world :=
  fold_left (fun w i => write out_fh (take 60 (drop i record.2) ++ [ch "010"]) w)
            (range0 (length record.2) 60)
            (write out_fh (record.1 ++ [ch "010"]) w).

(** The records that are kept. *)
Definition kept_records (ignore_version : bool) (t : gset str * gset str)
  (records : list (str * str)) : list (str * str) :=
  List.filter (fun record => matched ignore_version t record.1) records.

End ReaderSpec.

(** ** The target parser as the specification words it *)

Section ParserSpec.
Context {U : PyUnicode}.

Definition search_or_self (acc : str) : str :=
  match re_search ACCESSION_RE acc with
  | Some m => m
  | None => acc
  end.

(** The normalization of an accepted candidate; a candidate that
    normalizes to the empty string is skipped. *)
Definition normalize (acc : str) : option str :=
  let acc := replace " " "_" (strip acc) in
  let acc := if contains "|" acc then search_or_self acc else acc in
  let acc := search_or_self acc in
  if truthy acc then Some acc else None.

(** What a normalized candidate adds to the two sets. *)
Definition add_normalized (n : option str) (t : targets) : targets :=
  match n with
  | Some acc =>
      if contains "." acc
      then (t.1 ∪ {[ acc ]}, t.2 ∪ {[ before "." acc ]})
      else (t.1, t.2 ∪ {[ acc ]})
  | None => t
  end.

(** Digits, a dot and digits, decided without the pattern. *)
Definition is_versioned_number (t : str) : bool :=
  match drop_while isdecimal t with
  | c :: V =>
      is_char "." c && truthy (take_while isdecimal t)
      && truthy V && forallb isdecimal V
  | [] => false
  end.

(** The three strategies, in order, on a line that is neither blank nor a
    comment. *)
Definition candidate (line : str) : option str :=
  match re_search ACCESSION_RE (replace " " "_" line) with
  | Some m => Some m
  | None =>
      match split line with
      | t0 :: t1 :: _ =>
          if isalpha t0 && is_versioned_number t1
          then Some (t0 ++ py "_" ++ t1)
          else Some t0
      | [t0] => Some t0
      | [] => None
      end
  end.

Definition line_candidate (raw : str) : option str :=
  let line := strip raw in
  if truthy line && negb (startswith line (py "#")) then candidate line
  else None.

(** Every versioned target is its unversioned form, a dot and a version,
    and that unversioned form is a target too. *)
Definition consistent (t : targets) : Prop :=
  forall v, v ∈ t.1 ->
    before "." v ∈ t.2
    /\ exists version, v = before "." v ++ py "." ++ version.

End ParserSpec.

(** ** Runs *)

(** The lines that [open(path, "r")] gives, if it succeeds. *)
Definition readfile (w : world) (path : str) : option (list str) :=
  match files w !! file_of w path with
  | Some content => if readable w path then Some content else None
  | None => None
  end.

(** [path] names no file, or a file that may not be read. *)
Definition unavailable (w : world) (path : str) : Prop :=
  files w !! file_of w path = None \/ readable w path = false.

(** The output goes to a file, not to standard output. *)
Definition to_file (out_path : str) : bool :=
  negb (negb (truthy out_path) || bool_decide (out_path = py "-")).

Definition newline : str := [ch "010"].

(** Paths of one directory: [./name] names the file that [name] names. *)
Definition same_dir (path : str) : str :=
  match path with
  | a :: b :: name =>
      if bool_decide (a = ch ".") && bool_decide (b = ch "/") then name else path
  | _ => path
  end.

(** A world with a list of one target and no other file, and one with no
    file at all; every path may be read and written. *)
Definition one_target_world : world :=
  World {[ py "list.txt" := [py "NC_001806.1"] ]}
        same_dir (fun _ => true) (fun _ => true) [] [].

Definition empty_world : world :=
  World ∅ same_dir (fun _ => true) (fun _ => true) [] [].

(** ** The output as text *)

(** The slices [seq[i : i + 60]] that the loop of [filter_fasta] prints for
    a sequence, in order. *)
Definition wrapped (sequence : str) : list str :=
  map (fun i => take 60 (drop i sequence)) (range0 (length sequence) 60).

(** The lines written for a record that is kept, and for a list of them. *)
Definition serialize (record : str * str) : list str :=
  (record.1 ++ newline) :: map (fun chunk => chunk ++ newline) (wrapped record.2).

Definition serialize_all (records : list (str * str)) : list str :=
  concat (map serialize records).

(** The world after [lines] are written to [h]. *)
Definition write_all (h : handle) (lines : list str) (w : world) : world :=
  fold_left (fun w line => write h line w) lines w.

Section KeptSpec.
Context {U : PyUnicode}.

(** The value of [match] for a record, as [filter_fasta] computes it. *)
Definition is_kept (ignore_version : bool) (t : targets) (record : str * str)
  : bool :=
  match record_match ignore_version t record.1 with
  | Ok b => b
  | Raise _ => false
  end.

(** The summary line of a run over [records]. *)
Definition summary_of (ignore_version : bool) (t : targets)
  (records : list (str * str)) : str :=
  summary (length (List.filter (is_kept ignore_version t) records))
          (length records) ++ newline.

End KeptSpec.

Section ListSpec.
Context {U : PyUnicode}.

(** The test that makes the loop of [parse_targets] skip a line. *)
Definition skipped (raw : str) : bool :=
  negb (truthy (strip raw)) || startswith (strip raw) (py "#").

End ListSpec.

(** A line as iterating over a text file gives it: text without a newline,
    ended by a newline or, for the last line of a file, by nothing. *)
Definition text_line (line : str) : Prop :=
  exists body, none_in (is_char "010") body
               /\ (line = body \/ line = body ++ newline).

(** ** Sample inputs *)

Definition sample_list : list str :=
  [ py "NC" ++ ch " " :: py "001806" ++ py "." ++ py "1"
      ++ py " Human herpesvirus 1, complete genome" ++ newline;
    py "# reference strains" ++ newline;
    (py "NC" ++ py "_" ++ py "000001") ++ newline ].

Definition sample_fasta : list str :=
  [ py ">NC_001806.2 Human herpesvirus 1" ++ newline;
    py "ACGT" ++ newline;
    py "AC" ++ newline;
    py ">ref|NC_000001.7| other" ++ newline;
    py "GG" ++ newline;
    py ">gi|12345| unnamed" ++ newline;
    py "TT" ++ newline ].

Definition sample_world : world :=
  World {[ py "list.txt" := sample_list; py "v.fasta" := sample_fasta;
           py "old.fasta" := [py "stale"] ]}
        same_dir (fun _ => true) (fun _ => true) [] [].

Definition sample_targets : targets := (∅, {[ py "NC_000001" ]}).

Definition sample_args (out : string) (ignore_version : bool) : namespace :=
  Namespace (py "v.fasta") (py "list.txt") (py out) ignore_version.

(** * Proofs *)

(** ** Characters *)

Section CharFacts.
Context {U : PyUnicode}.

Lemma in_range_ascii lo hi c : in_range lo hi c = true -> (c < 256)%N.
Proof.
  unfold in_range. intros [_ H]%andb_true_iff. apply N.leb_le in H.
  pose proof (N_ascii_bounded hi). unfold ch in H. lia.
Qed.

Lemma upper_bounds c : upper c = true <-> (65 <= c <= 90)%N.
Proof.
  unfold upper, in_range, ch. cbn.
  rewrite andb_true_iff, !N.leb_le. tauto.
Qed.

Lemma isspace_space : isspace (ch " ") = true.
Proof. rewrite isspace_ascii by (vm_compute; reflexivity). reflexivity. Qed.

Lemma isspace_newline : isspace (ch "010") = true.
Proof. rewrite isspace_ascii by (vm_compute; reflexivity). reflexivity. Qed.

Lemma upper_not_isspace c : upper c = true -> isspace c = false.
Proof.
  intros H%upper_bounds. rewrite isspace_ascii by lia.
  unfold ascii_isspace.
  apply orb_false_iff; split; apply andb_false_iff; right; apply N.leb_gt; lia.
Qed.

Lemma is_char_eq a c : is_char a c = true <-> c = ch a.
Proof. unfold is_char. apply N.eqb_eq. Qed.

Lemma is_char_ch a : is_char a (ch a) = true.
Proof. apply is_char_eq. reflexivity. Qed.

Lemma isdecimal_digit a :
  ascii_isdecimal (ch a) = true -> isdecimal (ch a) = true.
Proof.
  intros H. rewrite isdecimal_ascii; [assumption|].
  apply in_range_ascii in H as H'.
  unfold ascii_isdecimal, in_range, ch in *. cbn in H.
  apply andb_true_iff in H as [_ H]. apply N.leb_le in H. lia.
Qed.

Lemma underscore_facts :
  isspace (ch "_") = false /\ isdecimal (ch "_") = false /\ upper (ch "_") = false.
Proof.
  rewrite isspace_ascii, isdecimal_ascii by (vm_compute; reflexivity).
  repeat split; reflexivity.
Qed.

Lemma dot_facts :
  isspace (ch ".") = false /\ isdecimal (ch ".") = false /\ upper (ch ".") = false.
Proof.
  rewrite isspace_ascii, isdecimal_ascii by (vm_compute; reflexivity).
  repeat split; reflexivity.
Qed.

End CharFacts.

(** ** Runs of a character class *)

Section Runs.
Context {A : Type}.
Implicit Types (f : A -> bool) (s a b : list A).

Lemma take_drop_while f s : take_while f s ++ drop_while f s = s.
Proof.
  induction s as [|c s IH]; cbn; [reflexivity|].
  destruct (f c); cbn; [now rewrite IH | reflexivity].
Qed.

Lemma take_while_all f s : Forall (fun c => f c = true) (take_while f s).
Proof.
  induction s as [|c s IH]; cbn; [constructor|].
  destruct (f c) eqn:E; [now constructor | constructor].
Qed.

Lemma take_while_app_all f a b :
  Forall (fun c => f c = true) a -> take_while f (a ++ b) = a ++ take_while f b.
Proof.
  induction 1 as [|c a Hc _ IH]; cbn; [reflexivity|]. now rewrite Hc, IH.
Qed.

Lemma drop_while_app_all f a b :
  Forall (fun c => f c = true) a -> drop_while f (a ++ b) = drop_while f b.
Proof.
  induction 1 as [|c a Hc _ IH]; cbn; [reflexivity|]. now rewrite Hc.
Qed.

Lemma take_while_stop f c s : f c = false -> take_while f (c :: s) = [].
Proof. intros H. cbn. now rewrite H. Qed.

Lemma drop_while_stop f c s : f c = false -> drop_while f (c :: s) = c :: s.
Proof. intros H. cbn. now rewrite H. Qed.

Lemma take_while_id f s : Forall (fun c => f c = true) s -> take_while f s = s.
Proof.
  intros H. rewrite <- (app_nil_r s) at 1.
  rewrite take_while_app_all by assumption. cbn. apply app_nil_r.
Qed.

Lemma drop_while_id f s : Forall (fun c => f c = false) s -> drop_while f s = s.
Proof. destruct 1 as [|c s Hc _]; cbn; [reflexivity | now rewrite Hc]. Qed.

(** The first [j] characters are in the class exactly when [j] is at most
    the length of the run. *)
Lemma take_in_run f s j :
  (j <= length (take_while f s))%nat ->
  Forall (fun c => f c = true) (take j s) /\ (j <= length s)%nat.
Proof.
  revert j. induction s as [|c s IH]; intros j Hj; cbn in *.
  - assert (j = 0%nat) by lia. subst. split; [constructor | lia].
  - destruct j as [|j]; [split; [constructor | lia]|].
    destruct (f c) eqn:E; cbn in Hj; [|lia].
    destruct (IH j) as [H1 H2]; [lia|]. split; [now constructor | lia].
Qed.

Lemma run_of_take f s j :
  (j <= length s)%nat -> Forall (fun c => f c = true) (take j s) ->
  (j <= length (take_while f s))%nat.
Proof.
  revert j. induction s as [|c s IH]; intros j Hj H; cbn in *; [lia|].
  destruct j as [|j]; [lia|]. cbn in H. inversion H as [|? ? Hc H']; subst.
  rewrite Hc. cbn. apply le_n_S, IH; [lia | assumption].
Qed.

End Runs.

(** ** The matcher against the declarative reading *)

Section Matcher.
Context {U : PyUnicode}.

Lemma give_back_eq k lo n s :
  give_back k lo n s =
  if (n <? lo)%nat then None
  else match k n with
       | Some m => Some (take n s ++ m)
       | None => match n with
                 | O => None
                 | S n' => give_back k lo n' s
                 end
       end.
Proof. destruct n; reflexivity. Qed.

Lemma give_back_sound k lo n s m :
  give_back k lo n s = Some m ->
  exists j m', (lo <= j <= n)%nat /\ k j = Some m' /\ m = take j s ++ m'.
Proof.
  induction n as [|n IH]; rewrite give_back_eq.
  - destruct (0 <? lo)%nat eqn:E; [discriminate|]. apply Nat.ltb_ge in E.
    destruct (k 0%nat) as [m'|] eqn:Hk; [|discriminate].
    intros [= <-]. exists 0%nat, m'. repeat split; try lia; assumption.
  - destruct (S n <? lo)%nat eqn:E; [discriminate|]. apply Nat.ltb_ge in E.
    destruct (k (S n)) as [m'|] eqn:Hk.
    + intros [= <-]. exists (S n), m'. repeat split; try lia; assumption.
    + intros H. destruct (IH H) as (j & m' & Hj & Hkj & ->).
      exists j, m'. repeat split; try lia; assumption.
Qed.

(** No backtracking when the rest of the pattern matches at once. *)
Lemma give_back_first k lo n s m' :
  (lo <= n)%nat -> k n = Some m' -> give_back k lo n s = Some (take n s ++ m').
Proof.
  intros Hlo Hk. rewrite give_back_eq.
  apply Nat.ltb_ge in Hlo. now rewrite Hlo, Hk.
Qed.

Lemma give_back_complete k lo n s j :
  (lo <= j <= n)%nat -> is_Some (k j) -> is_Some (give_back k lo n s).
Proof.
  intros Hj Hk. induction n as [|n IH]; rewrite give_back_eq.
  - assert (j = 0)%nat as -> by lia. assert (lo = 0)%nat as -> by lia. cbn.
    destruct Hk as [m' ->]. eauto.
  - destruct (S n <? lo)%nat eqn:E; [apply Nat.ltb_lt in E; lia|].
    destruct (k (S n)) as [m'|] eqn:Hn; [eauto|].
    apply IH. destruct (decide (j = S n)) as [->|]; [|lia].
    rewrite Hn in Hk. now destruct Hk.
Qed.

Lemma greedy_bounds cls hi s :
  (greedy cls hi s <= length (take_while cls s))%nat /\ within hi (greedy cls hi s).
Proof. unfold greedy, within. destruct hi; split; lia. Qed.

Lemma greedy_max cls hi s j :
  within hi j -> (j <= length (take_while cls s))%nat -> (j <= greedy cls hi s)%nat.
Proof. unfold greedy, within. destruct hi; lia. Qed.

Lemma within_le hi j j' : within hi j -> (j' <= j)%nat -> within hi j'.
Proof. unfold within. destruct hi; [lia | trivial]. Qed.

(** The matcher returns only what the pattern matches, and finds a match
    whenever there is one: giving characters back tries every count. *)
Theorem match_here_sound p pos s m :
  match_here p pos s = Some m -> matches p pos s m.
Proof.
  revert pos s m. induction p as [|[cls lo hi| |] p IH]; intros pos s m; cbn.
  - now intros [= <-].
  - intros H. apply give_back_sound in H as (j & m' & Hj & Hk & ->).
    pose proof (greedy_bounds cls hi s) as [Hg Hw].
    destruct (take_in_run cls s j) as [Hall Hlen]; [lia|].
    exists j, m'. repeat split; try lia; try assumption.
    + eapply within_le; [exact Hw | lia].
    + now apply IH.
  - destruct (pos =? 0)%nat eqn:E; [|discriminate].
    apply Nat.eqb_eq in E. intros H. split; [assumption | now apply IH].
  - destruct (at_end s) eqn:E; [|discriminate].
    intros H. split; [reflexivity | now apply IH].
Qed.

Theorem match_here_complete p pos s m :
  matches p pos s m -> is_Some (match_here p pos s).
Proof.
  revert pos s m. induction p as [|[cls lo hi| |] p IH]; intros pos s m; cbn.
  - eauto.
  - intros (j & m' & Hlo & Hhi & Hlen & Hall & Hm & _).
    apply give_back_complete with (j := j).
    + split; [assumption|]. apply greedy_max; [assumption|].
      now apply run_of_take.
    + eapply IH, Hm.
  - intros [-> H]. cbn. eapply IH, H.
  - intros [-> H]. eapply IH, H.
Qed.

(** What a pattern without anchors matches does not depend on the position
    nor on what follows the match. *)
Lemma matches_extend p pos pos' s b m :
  anchor_free p = true -> matches p pos s m -> matches p pos' (s ++ b) m.
Proof.
  revert pos pos' s m. induction p as [|[cls lo hi| |] p IH];
    intros pos pos' s m; cbn; try discriminate; [trivial|].
  intros Hp (j & m' & Hlo & Hhi & Hlen & Hall & Hm & ->).
  exists j, m'. rewrite take_app_le, drop_app_le by assumption.
  repeat split; try assumption.
  - rewrite length_app. lia.
  - eapply IH; eassumption.
Qed.

Lemma matches_prefix p pos s m : matches p pos s m -> exists rest, s = m ++ rest.
Proof.
  revert pos s m. induction p as [|[cls lo hi| |] p IH]; intros pos s m; cbn.
  - intros ->. now exists s.
  - intros (j & m' & _ & _ & _ & _ & Hm & ->).
    destruct (IH _ _ _ Hm) as [rest Hrest]. exists rest.
    rewrite <- app_assoc, <- Hrest. now rewrite take_drop.
  - intros [_ H]. eauto.
  - intros [_ H]. eauto.
Qed.

(** [search] returns the match at the first position that has one. *)
Lemma search_from_Some p pos s m :
  search_from p pos s = Some m ->
  exists a b, s = a ++ b /\ match_here p (pos + length a) b = Some m
              /\ forall a' b', s = a' ++ b' -> (length a' < length a)%nat ->
                               match_here p (pos + length a') b' = None.
Proof.
  revert pos. induction s as [|c s IH]; intros pos; cbn.
  - destruct (match_here p pos []) as [m'|] eqn:E; [|discriminate].
    intros [= <-]. exists [], []. cbn. rewrite Nat.add_0_r.
    repeat split; [assumption|]. intros; lia.
  - destruct (match_here p pos (c :: s)) as [m'|] eqn:E.
    + intros [= <-]. exists [], (c :: s). cbn. rewrite Nat.add_0_r.
      repeat split; [assumption|]. intros; lia.
    + intros H. destruct (IH _ H) as (a & b & -> & Hm & Hfirst).
      exists (c :: a), b. cbn. rewrite Nat.add_succ_r. repeat split; [assumption|].
      intros a' b' Heq Hlt. destruct a' as [|c' a']; cbn in *.
      * subst b'. now rewrite Nat.add_0_r.
      * injection Heq as <- Heq. rewrite Nat.add_succ_r.
        apply (Hfirst a' b' Heq). lia.
Qed.

Lemma search_from_None p pos s a b :
  search_from p pos s = None -> s = a ++ b ->
  match_here p (pos + length a) b = None.
Proof.
  revert pos a. induction s as [|c s IH]; intros pos a; cbn.
  - destruct (match_here p pos []) eqn:E; [discriminate|].
    intros _ Heq. symmetry in Heq. apply app_eq_nil in Heq as [-> ->].
    cbn. now rewrite Nat.add_0_r.
  - destruct (match_here p pos (c :: s)) eqn:E; [discriminate|].
    intros H Heq. destruct a as [|c' a]; cbn in *.
    + subst b. now rewrite Nat.add_0_r.
    + injection Heq as <- Heq. rewrite Nat.add_succ_r.
      now apply (IH (S pos) a).
Qed.

Lemma search_from_here p pos s m :
  match_here p pos s = Some m -> search_from p pos s = Some m.
Proof. intros H. destruct s; cbn; now rewrite H. Qed.

(** A pattern without anchors found in a part of a string is found in the
    string. *)
Theorem re_search_substring p t s :
  anchor_free p = true -> substring t s ->
  is_Some (re_search p t) -> is_Some (re_search p s).
Proof.
  intros Hp (a & b & ->) [m Hm]. unfold re_search in *.
  destruct (search_from p 0 (a ++ t ++ b)) eqn:E; [eauto|].
  apply search_from_Some in Hm as (a1 & b1 & -> & Hm & _).
  apply match_here_sound in Hm.
  apply matches_extend with (pos' := (0 + length (a ++ a1))%nat) (b := b) in Hm;
    [|assumption].
  apply match_here_complete in Hm as [m' Hm'].
  rewrite (search_from_None p 0 _ (a ++ a1) (b1 ++ b) E) in Hm'.
  - discriminate.
  - now rewrite <- !app_assoc.
Qed.

End Matcher.

(** ** The two patterns of the program *)

Section Patterns.
Context {U : PyUnicode}.

Lemma all_in_one a t : all_in (is_char a) t -> length t = 1%nat -> t = [ch a].
Proof.
  destruct t as [|c [|? ?]]; cbn; try discriminate. intros H _.
  inversion H as [|? ? Hc _]; subst. apply is_char_eq in Hc. now subst.
Qed.

Lemma match_here_repeat_exact cls lo hi p pos X rest m' :
  all_in cls X -> (lo <= length X)%nat -> within hi (length X) ->
  take_while cls rest = [] ->
  match_here p (pos + length X) rest = Some m' ->
  match_here (Repeat cls lo hi :: p) pos (X ++ rest) = Some (X ++ m').
Proof.
  intros Hall Hlo Hhi Hstop Hm. cbn.
  assert (greedy cls hi (X ++ rest) = length X) as ->.
  { unfold greedy. rewrite take_while_app_all, Hstop, app_nil_r by assumption.
    unfold within in Hhi. destruct hi; lia. }
  rewrite (give_back_first _ lo (length X) (X ++ rest) m').
  - now rewrite take_app_length.
  - assumption.
  - now rewrite drop_app_length.
Qed.

Lemma match_here_one a p pos rest m' :
  match_here p (pos + 1) rest = Some m' ->
  match rest with c :: _ => is_char a c = false | [] => True end ->
  match_here (One (is_char a) :: p) pos (ch a :: rest) = Some (ch a :: m').
Proof.
  intros Hm Hstop.
  apply (match_here_repeat_exact (is_char a) 1 (Some 1%nat) p pos [ch a] rest m');
    cbn; try lia; try assumption.
  - constructor; [apply is_char_ch | constructor].
  - destruct rest as [|c rest]; [reflexivity|]. cbn. now rewrite Hstop.
Qed.

(** On a canonical accession followed by no further digit, the pattern
    matches the accession itself at its first try. *)
Lemma match_here_accession pos P D V rest :
  accession_parts P D V -> take_while isdecimal rest = [] ->
  match_here ACCESSION_RE pos (accession P D V ++ rest) = Some (accession P D V).
Proof.
  intros (HP & HPu & HD & HDd & HV & HVd) Hrest.
  destruct underscore_facts as (_ & Hud & Huu).
  destruct dot_facts as (_ & Hdd & _).
  unfold accession, ACCESSION_RE, Plus.
  change (py "_") with [ch "_"]. change (py ".") with [ch "."].
  rewrite <- !app_assoc. cbn [app].
  apply match_here_repeat_exact;
    [assumption | lia | cbn; lia | now apply take_while_stop |].
  apply match_here_one.
  2:{ destruct D as [|d D]; [congruence|]. cbn [app]. inversion HDd; subst.
      unfold is_char. apply N.eqb_neq. intros ->. congruence. }
  apply match_here_repeat_exact;
    [assumption | | exact I | now apply take_while_stop |].
  { destruct D; [congruence | cbn; lia]. }
  apply match_here_one.
  2:{ destruct V as [|d V]; [congruence|]. cbn [app]. inversion HVd; subst.
      unfold is_char. apply N.eqb_neq. intros ->. congruence. }
  rewrite <- (app_nil_r V) at 2.
  apply match_here_repeat_exact;
    [assumption | | exact I | assumption | reflexivity].
  destruct V; [congruence | cbn; lia].
Qed.

Lemma re_search_accession P D V rest :
  accession_parts P D V -> take_while isdecimal rest = [] ->
  re_search ACCESSION_RE (accession P D V ++ rest) = Some (accession P D V).
Proof.
  intros HP Hrest. apply search_from_here. now apply match_here_accession.
Qed.

Lemma take_length_le (s : str) j : (j <= length s)%nat -> length (take j s) = j.
Proof. intros H. rewrite length_take. lia. Qed.

(** Whatever the pattern matches is a canonical accession at the head of
    the text. *)
Lemma matches_accession pos s m :
  matches ACCESSION_RE pos s m -> canonical m /\ exists rest, s = m ++ rest.
Proof.
  intros H. split; [|eapply matches_prefix, H].
  cbn in H.
  destruct H as (j1 & m1 & Hlo1 & Hhi1 & Hlen1 & Hall1 & H & ->).
  destruct H as (j2 & m2 & Hlo2 & Hhi2 & Hlen2 & Hall2 & H & ->).
  destruct H as (j3 & m3 & Hlo3 & _ & Hlen3 & Hall3 & H & ->).
  destruct H as (j4 & m4 & Hlo4 & Hhi4 & Hlen4 & Hall4 & H & ->).
  destruct H as (j5 & m5 & Hlo5 & _ & Hlen5 & Hall5 & -> & ->).
  cbn in Hhi1, Hhi2, Hhi4.
  apply all_in_one in Hall2; [|rewrite take_length_le; lia].
  apply all_in_one in Hall4; [|rewrite take_length_le; lia].
  rewrite Hall2, Hall4, app_nil_r.
  eexists (take j1 s), _, _. split; [|unfold accession; cbn; reflexivity].
  repeat split; try assumption.
  - rewrite take_length_le; lia.
  - rewrite take_length_le; lia.
  - intros E. apply (f_equal length) in E. rewrite take_length_le in E; cbn in E; lia.
  - intros E. apply (f_equal length) in E. rewrite take_length_le in E; cbn in E; lia.
Qed.

Lemma re_search_canonical s m :
  re_search ACCESSION_RE s = Some m -> canonical m /\ substring m s.
Proof.
  intros H. apply search_from_Some in H as (a & b & -> & H & _).
  apply match_here_sound, matches_accession in H as [Hc [rest ->]].
  split; [assumption|]. now exists a, rest.
Qed.

Lemma canonical_nonempty acc : canonical acc -> acc <> [].
Proof.
  intros (P & D & V & (HP & _) & ->). unfold accession.
  destruct P; cbn in *; [lia | discriminate].
Qed.

(** A token is accepted by [r"^\d+\.\d+$"] exactly when it is digits, a
    dot and digits; a token holds no newline. *)
Lemma re_match_versioned_number t :
  ch "010" ∉ t ->
  is_Some (re_match VERSIONED_NUMBER_RE t) <-> versioned_number t.
Proof.
  intros Hnl. unfold re_match. split.
  - intros [m Hm]. apply match_here_sound in Hm. cbn in Hm.
    destruct Hm as (_ & j1 & m1 & Hlo1 & _ & Hlen1 & Hall1 & H & ->).
    destruct H as (j2 & m2 & Hlo2 & Hhi2 & Hlen2 & Hall2 & H & ->).
    destruct H as (j3 & m3 & Hlo3 & _ & Hlen3 & Hall3 & H & ->).
    destruct H as (Hend & ->). cbn in Hhi2.
    apply all_in_one in Hall2; [|rewrite take_length_le; lia].
    set (r := drop j3 (drop j2 (drop j1 t))) in *.
    assert (r = []) as Hr.
    { destruct r as [|c [|? ?]] eqn:Er; [reflexivity| |discriminate].
      cbn in Hend. apply is_char_eq in Hend. subst c. exfalso. apply Hnl.
      rewrite <- (take_drop j1 t), <- (take_drop j2 (drop j1 t)),
        <- (take_drop j3 (drop j2 (drop j1 t))).
      fold r. rewrite Er. set_solver. }
    exists (take j1 t), (take j3 (drop j2 (drop j1 t))).
    repeat split; try assumption.
    + intros E. apply (f_equal length) in E. rewrite take_length_le in E; cbn in E; lia.
    + intros E. apply (f_equal length) in E. rewrite take_length_le in E; cbn in E; lia.
    + rewrite <- (take_drop j1 t) at 1. f_equal.
      rewrite <- (take_drop j2 (drop j1 t)) at 1. rewrite Hall2. cbn. f_equal.
      rewrite <- (take_drop j3 (drop j2 (drop j1 t))) at 1.
      fold r. rewrite Hr. apply app_nil_r.
  - intros (D & V & HD & HDd & HV & HVd & ->).
    apply (match_here_complete _ _ _ (D ++ py "." ++ V)). cbn.
    split; [reflexivity|].
    exists (length D), (py "." ++ V).
    rewrite take_app_length, drop_app_length.
    repeat split; try assumption.
    + destruct D; [congruence | cbn; lia].
    + rewrite length_app. lia.
    + exists 1%nat, V. cbn. rewrite take_0, drop_0. repeat split; try lia.
      * constructor; [apply is_char_ch | constructor].
      * exists (length V), []. rewrite take_ge, drop_ge by lia.
        repeat split; try lia; try assumption.
        -- destruct V; [congruence | cbn; lia].
        -- now rewrite app_nil_r.
Qed.

End Patterns.

(** ** The string methods *)

Section BuiltinFacts.
Context {U : PyUnicode}.
Implicit Types (f : char -> bool) (s t : str).

Lemma lstrip_by_split f s : exists a, s = a ++ lstrip_by f s /\ all_in f a.
Proof.
  exists (take_while f s). split; [symmetry; apply take_drop_while|].
  apply take_while_all.
Qed.

Lemma rstrip_by_split f s : exists b, s = rstrip_by f s ++ b /\ all_in f b.
Proof.
  unfold rstrip_by. exists (rev (take_while f (rev s))). split.
  - rewrite <- rev_app_distr, take_drop_while. now rewrite rev_involutive.
  - apply Forall_rev, take_while_all.
Qed.

Lemma strip_by_substring f s : substring (strip_by f s) s.
Proof.
  unfold strip_by. destruct (lstrip_by_split f s) as (a & Ha & _).
  destruct (rstrip_by_split f (lstrip_by f s)) as (b & Hb & _).
  exists a, b. now rewrite <- Hb.
Qed.

Lemma none_in_rev f s : none_in f s -> none_in f (rev s).
Proof. apply Forall_rev. Qed.

Lemma strip_by_id f s : none_in f s -> strip_by f s = s.
Proof.
  intros H. unfold strip_by, rstrip_by, lstrip_by.
  rewrite (drop_while_id f s H), drop_while_id by now apply none_in_rev.
  apply rev_involutive.
Qed.

Lemma replace_id a b s : none_in (is_char a) s -> replace a b s = s.
Proof.
  unfold replace. induction 1 as [|c s Hc _ IH]; cbn; [reflexivity|].
  now rewrite Hc, IH.
Qed.

Lemma contains_false a s : contains a s = false <-> none_in (is_char a) s.
Proof.
  unfold contains, none_in. induction s as [|c s IH]; cbn.
  - split; [constructor | reflexivity].
  - rewrite orb_false_iff, IH. split.
    + intros [? ?]. now constructor.
    + inversion 1; subst. now split.
Qed.

Lemma contains_true a s : contains a s = true <-> ch a ∈ s.
Proof.
  unfold contains. rewrite existsb_exists. split.
  - intros (c & Hin & ->%is_char_eq). now apply list_elem_of_In.
  - intros H. exists (ch a). split; [now apply list_elem_of_In | apply is_char_ch].
Qed.

Lemma split_on_from_head sep cur s :
  exists pieces, split_on_from sep cur s = (cur ++ before sep s) :: pieces.
Proof.
  revert cur. induction s as [|c s IH]; intros cur; cbn.
  - exists []. now rewrite app_nil_r.
  - destruct (is_char sep c); cbn.
    + eexists. now rewrite app_nil_r.
    + destruct (IH (cur ++ [c])) as [pieces ->]. exists pieces.
      now rewrite <- app_assoc.
Qed.

Lemma index_split_on sep s : index (split_on sep s) 0 = Ok (before sep s).
Proof.
  unfold split_on. destruct (split_on_from_head sep [] s) as [pieces ->].
  reflexivity.
Qed.

Lemma before_app sep a b :
  none_in (is_char sep) a -> before sep (a ++ ch sep :: b) = a.
Proof.
  intros H. unfold before. rewrite take_while_app_all.
  - cbn. rewrite is_char_ch. cbn. apply app_nil_r.
  - eapply Forall_impl; [exact H|]. cbn. now intros c ->.
Qed.

Lemma split_ws_from_run cur s :
  cur <> [] ->
  split_ws_from cur s
  = (cur ++ take_while nonspace s) :: split_ws_from [] (drop_while nonspace s).
Proof.
  revert cur. induction s as [|c s IH]; intros cur Hcur; cbn.
  - destruct cur; [congruence|]. now rewrite app_nil_r.
  - unfold nonspace at 1 3. destruct (isspace c) eqn:E; cbn.
    + rewrite E. destruct cur; [congruence|]. now rewrite app_nil_r.
    + rewrite IH by (destruct cur; discriminate). now rewrite <- app_assoc.
Qed.

Lemma split_skip s : split s = split (drop_while isspace s).
Proof.
  unfold split. induction s as [|c s IH]; cbn; [reflexivity|].
  destruct (isspace c) eqn:E; [assumption|]. cbn. now rewrite E.
Qed.

Lemma split_token c s :
  isspace c = false ->
  split (c :: s)
  = (c :: take_while nonspace s) :: split (drop_while nonspace s).
Proof.
  intros E. unfold split. cbn. rewrite E. cbn.
  now rewrite split_ws_from_run by discriminate.
Qed.

Lemma split_tokens s :
  Forall (fun t => t <> [] /\ none_in isspace t) (split s).
Proof.
  remember (length s) as n eqn:Hn. revert s Hn.
  induction n as [n IH] using lt_wf_ind. intros s ->.
  rewrite split_skip.
  destruct (drop_while isspace s) as [|c r] eqn:E; [constructor|].
  assert (isspace c = false) as Hc.
  { clear IH. induction s as [|d s IHs]; cbn in E; [discriminate|].
    destruct (isspace d) eqn:Ed; [auto | congruence]. }
  rewrite split_token by assumption. constructor.
  - split; [discriminate|]. constructor; [assumption|].
    eapply Forall_impl; [apply take_while_all|]. cbn.
    unfold nonspace. now intros d ->%negb_true_iff.
  - eapply IH; [|reflexivity].
    pose proof (take_drop_while isspace s) as H1.
    pose proof (take_drop_while nonspace r) as H2.
    apply (f_equal length) in H1, H2. rewrite E in H1.
    rewrite length_app in H1, H2. cbn in H1. lia.
Qed.

End BuiltinFacts.

(** ** The accession extractor *)

Section Extractor.
Context {U : PyUnicode}.

Lemma drop_while_head f (s : str) c r : drop_while f s = c :: r -> f c = false.
Proof.
  induction s as [|d s IH]; cbn; [discriminate|].
  destruct (f d) eqn:E; [assumption | congruence].
Qed.

Lemma substring_trans (a b c : str) : substring a b -> substring b c -> substring a c.
Proof.
  intros (x & y & ->) (x' & y' & ->). exists (x' ++ x), (y ++ y').
  now rewrite <- !app_assoc.
Qed.

Lemma substring_none_in f (t s : str) : substring t s -> none_in f s -> none_in f t.
Proof.
  intros (a & b & ->) H. apply Forall_app in H as [_ H].
  now apply Forall_app in H as [H _].
Qed.

Lemma remainder_eq header :
  (if startswith header (py ">") then drop 1 header else header) = remainder header.
Proof.
  destruct header as [|c h]; [reflexivity|]. cbn.
  unfold is_char. destruct (c =? ch ">")%N; [destruct h|]; reflexivity.
Qed.

Lemma first_token_eq (h : str) :
  (if truthy (split h) then index (split h) 0 else mret []) = Ok (first_token h).
Proof.
  unfold first_token. rewrite split_skip.
  destruct (drop_while isspace h) as [|c r] eqn:E; [reflexivity|].
  apply drop_while_head in E.
  rewrite split_token by assumption. cbn. unfold nonspace at 2. now rewrite E.
Qed.

Lemma first_token_substring (h : str) : substring (first_token h) h.
Proof.
  unfold first_token.
  destruct (lstrip_by_split isspace h) as (a & Ha & _). unfold lstrip_by in Ha.
  exists a, (drop_while nonspace (drop_while isspace h)).
  now rewrite take_drop_while.
Qed.

Lemma first_token_nonspace (h : str) : none_in isspace (first_token h).
Proof.
  unfold first_token. eapply Forall_impl; [apply take_while_all|]. cbn.
  unfold nonspace. now intros c ->%negb_true_iff.
Qed.

Lemma none_in_isspace_no_space (s : str) :
  none_in isspace s -> none_in (is_char " ") s.
Proof.
  intros H. eapply Forall_impl; [exact H|]. cbn. intros c Hc.
  destruct (is_char " " c) eqn:E; [|reflexivity].
  apply is_char_eq in E. subst c. rewrite isspace_space in Hc. discriminate.
Qed.

(** The cleaned token of the fallback is a contiguous part of the text. *)
Lemma fallback_token_substring (h : str) : substring (fallback_token h) h.
Proof.
  unfold fallback_token.
  pose proof (strip_by_substring (is_char "|") (first_token h)) as Hs.
  rewrite replace_id.
  - eapply substring_trans; [exact Hs | apply first_token_substring].
  - apply none_in_isspace_no_space.
    eapply substring_none_in; [exact Hs | apply first_token_nonspace].
Qed.

Lemma anchor_free_ACCESSION_RE : anchor_free ACCESSION_RE = true.
Proof. reflexivity. Qed.

Lemma fallback_never_matches (h : str) :
  re_search ACCESSION_RE h = None ->
  re_search ACCESSION_RE (fallback_token h) = None.
Proof.
  intros Hnone.
  destruct (re_search ACCESSION_RE (fallback_token h)) as [m|] eqn:E; [|reflexivity].
  pose proof (re_search_substring ACCESSION_RE _ h anchor_free_ACCESSION_RE
                (fallback_token_substring h) (mk_is_Some _ _ E)) as [m' Hm'].
  congruence.
Qed.

Lemma extract_header_accession_spec header :
  extract_header_accession header = Ok (extract_spec header).
Proof.
  unfold extract_header_accession, extract_spec. rewrite remainder_eq.
  destruct (re_search ACCESSION_RE (remainder header)) as [acc|] eqn:E.
  - rewrite index_split_on. reflexivity.
  - rewrite first_token_eq. cbn. fold (fallback_token (remainder header)).
    destruct (re_search ACCESSION_RE (fallback_token (remainder header))); cbn.
    + rewrite index_split_on. reflexivity.
    + reflexivity.
Qed.

Lemma before_accession P D V :
  accession_parts P D V -> before "." (accession P D V) = P ++ py "_" ++ D.
Proof.
  intros (_ & HP & _ & HD & _). destruct dot_facts as (_ & Hd & Hu).
  unfold accession. rewrite !app_assoc, <- (app_assoc _ (py ".")).
  apply before_app. rewrite <- app_assoc.
  apply Forall_app; split; [|apply Forall_app; split].
  - eapply Forall_impl; [exact HP|]. cbn. intros c Hc.
    destruct (is_char "." c) eqn:E; [|reflexivity].
    apply is_char_eq in E. congruence.
  - now repeat constructor.
  - eapply Forall_impl; [exact HD|]. cbn. intros c Hc.
    destruct (is_char "." c) eqn:E; [|reflexivity].
    apply is_char_eq in E. congruence.
Qed.

(** C3: the extractor is the two searches of the specification: the
    pattern anywhere in the header without its leading [>], else in the
    first whitespace token with its bars stripped and its spaces replaced;
    it returns the match with its part before the first dot, which is the
    accession without its version, or [(None, None)]. *)
Theorem extract_header_accession_algorithm (header : str) :
  extract_header_accession header = Ok (extract_spec header)
  /\ (forall acc, re_search ACCESSION_RE (remainder header) = Some acc ->
        extract_header_accession header = Ok (Some acc, Some (before "." acc)))
  /\ (re_search ACCESSION_RE (remainder header) = None ->
      re_search ACCESSION_RE (fallback_token (remainder header)) = None ->
        extract_header_accession header = Ok (None, None))
  /\ (forall wv nv, extract_header_accession header = Ok (wv, nv) ->
        (wv = None /\ nv = None)
        \/ exists P D V, accession_parts P D V /\ wv = Some (accession P D V)
                         /\ nv = Some (P ++ py "_" ++ D)).
Proof.
  rewrite extract_header_accession_spec. unfold extract_spec.
  repeat split.
  - now intros acc ->.
  - now intros -> ->.
  - intros wv nv [= H].
    destruct (re_search ACCESSION_RE (remainder header)) as [acc|] eqn:E.
    + injection H as <- <-. right.
      apply re_search_canonical in E as [(P & D & V & Hp & ->) _].
      exists P, D, V. now rewrite before_accession.
    + destruct (re_search ACCESSION_RE (fallback_token (remainder header)))
        as [acc|] eqn:E'.
      * injection H as <- <-. right.
        apply re_search_canonical in E' as [(P & D & V & Hp & ->) _].
        exists P, D, V. now rewrite before_accession.
      * injection H as <- <-. now left.
Qed.

(** C10: the fallback of the extractor never finds anything: its cleaned
    token is a contiguous part of the header, so the extractor is one
    search of the pattern over the header without its leading [>]. *)
Theorem extract_header_accession_single_search (header : str) :
  substring (fallback_token (remainder header)) (remainder header)
  /\ (re_search ACCESSION_RE (remainder header) = None ->
        re_search ACCESSION_RE (fallback_token (remainder header)) = None
        /\ extract_header_accession header = Ok (None, None))
  /\ extract_header_accession header = Ok (search_header_only header).
Proof.
  split; [apply fallback_token_substring|].
  rewrite extract_header_accession_spec. unfold extract_spec, search_header_only.
  split.
  - intros E. rewrite E. rewrite (fallback_never_matches _ E). now split.
  - destruct (re_search ACCESSION_RE (remainder header)) eqn:E; [reflexivity|].
    now rewrite (fallback_never_matches _ E).
Qed.

End Extractor.

(** ** The effects of the loops *)

Section Effects.
Context {U : PyUnicode}.

Lemma io_bind_eq {A B} (f : A -> io B) (m : io A) w :
  (m ≫= f) w = match m w with
               | (Ok a, w') => f a w'
               | (Raise e, w') => (Raise e, w')
               end.
Proof. reflexivity. Qed.

Lemma io_bind_ok {A B} (f : A -> io B) (m : io A) w a w' :
  m w = (Ok a, w') -> (m ≫= f) w = f a w'.
Proof. intros H. now rewrite io_bind_eq, H. Qed.

(** The world after the lines [texts] are printed to [h]. *)
Lemma print_each_ok {A} (text : A -> str) h (l : list A) w :
  for_each (fun a (_ : unit) => print (text a) h) l tt w
  = (Ok tt, fold_left (fun w a => write h (text a ++ [ch "010"]) w) l w).
Proof.
  revert w. induction l as [|a l IH]; intros w; [reflexivity|].
  cbn [for_each fold_left]. erewrite io_bind_ok; [apply IH | reflexivity].
Qed.

Lemma memberb_member a s : memberb a s = true <-> member a s.
Proof.
  unfold memberb, member. destruct a as [acc|].
  - rewrite bool_decide_eq_true. split; [eauto | now intros (? & [= <-] & ?)].
  - split; [discriminate | now intros (? & [=] & _)].
Qed.

Lemma found_truthy m a :
  (forall acc, m = Some acc -> canonical acc) ->
  (found m).1 = Some a \/ (found m).2 = Some a -> a <> [].
Proof.
  intros Hc. destruct m as [acc|]; cbn; [|now intros [|]].
  destruct (Hc acc eq_refl) as (P & D & V & Hp & ->).
  intros [[= <-]|[= <-]].
  - apply canonical_nonempty. now exists P, D, V.
  - rewrite before_accession by assumption.
    destruct Hp as ((HP & _) & _). destruct P; cbn in *; [lia | discriminate].
Qed.

(** Whatever the extractor returns is a non-empty string: its truth value
    is that of not being [None]. *)
Lemma extract_spec_truthy header a :
  (extract_spec header).1 = Some a \/ (extract_spec header).2 = Some a -> a <> [].
Proof.
  unfold extract_spec.
  destruct (re_search ACCESSION_RE (remainder header)) as [acc|] eqn:E.
  - apply found_truthy. intros ? [= <-]. now apply re_search_canonical in E.
  - apply found_truthy. intros acc E'. now apply re_search_canonical in E'.
Qed.

Lemma present_in_memberb a s : a <> Some [] -> present_in a s = memberb a s.
Proof. destruct a as [[|c acc]|]; [congruence | reflexivity | reflexivity]. Qed.

Lemma record_match_matched ignore_version t header :
  record_match ignore_version t header = Ok (matched ignore_version t header).
Proof.
  unfold record_match, matched. rewrite extract_header_accession_spec. cbn.
  destruct (extract_spec header) as [wv nv] eqn:E. cbn.
  rewrite !present_in_memberb.
  - destruct (memberb wv t.1); [reflexivity|]. cbn.
    destruct (ignore_version && memberb nv t.2); reflexivity.
  - intros ->. eapply (extract_spec_truthy header []); [|reflexivity].
    right. now rewrite E.
  - intros ->. eapply (extract_spec_truthy header []); [|reflexivity].
    left. now rewrite E.
Qed.

Lemma filter_fasta_record_eq ignore_version t out_fh record kept total w :
  filter_fasta_record ignore_version t out_fh record (kept, total) w
  = if matched ignore_version t record.1
    then (Ok (S kept, S total), written out_fh record w)
    else (Ok (kept, S total), w).
Proof.
  destruct record as [header sequence]. unfold filter_fasta_record, written.
  rewrite record_match_matched. cbn [fst snd].
  replace (total + 1)%nat with (S total) by lia.
  replace (kept + 1)%nat with (S kept) by lia.
  destruct (matched ignore_version t header); [|reflexivity].
  erewrite io_bind_ok by reflexivity. lazy beta iota.
  erewrite io_bind_ok by reflexivity.
  erewrite io_bind_ok by apply print_each_ok. reflexivity.
Qed.

End Effects.

(** ** The matching decision and the loop of [filter_fasta] *)

Section Matching.
Context {U : PyUnicode}.

(** C1: a record is kept exactly when its versioned accession is not [None]
    and is in the versioned targets, or [ignore_version] is set and its
    unversioned accession is not [None] and is in the unversioned targets. *)
Theorem record_kept_iff (ignore_version : bool) (t : targets)
  (header sequence : str) (out_fh : handle) (kept total : nat) (w : world) :
  exists acc_wv acc_nv b,
    extract_header_accession header = Ok (acc_wv, acc_nv)
    /\ record_match ignore_version t header = Ok b
    /\ (b = true <->
        member acc_wv t.1 \/ (ignore_version = true /\ member acc_nv t.2))
    /\ (filter_fasta_record ignore_version t out_fh (header, sequence)
                            (kept, total) w).1
       = Ok (if b then S kept else kept, S total).
Proof.
  exists (extract_spec header).1, (extract_spec header).2,
    (matched ignore_version t header).
  split; [rewrite extract_header_accession_spec; now destruct (extract_spec header)|].
  split; [apply record_match_matched|]. split.
  - unfold matched. destruct (extract_spec header) as [wv nv]. cbn [fst snd].
    rewrite orb_true_iff, andb_true_iff, !memberb_member. tauto.
  - rewrite filter_fasta_record_eq. cbn [fst].
    now destruct (matched ignore_version t header).
Qed.

(** The loop over the records never raises; it counts the records and
    those that match. *)
Lemma filter_fasta_loop ignore_version t out_fh records kept total w :
  for_each (filter_fasta_record ignore_version t out_fh) records (kept, total) w
  = (Ok ((kept + length (kept_records ignore_version t records))%nat,
         (total + length records)%nat),
     fold_left (fun w record => written out_fh record w)
               (kept_records ignore_version t records) w).
Proof.
  revert kept total w. induction records as [|record records IH]; intros kept total w.
  - cbn. now rewrite !Nat.add_0_r.
  - cbn [for_each]. rewrite io_bind_eq, filter_fasta_record_eq.
    unfold kept_records in *. cbn [List.filter length].
    destruct (matched ignore_version t record.1).
    + rewrite IH. cbn [length fold_left]. do 3 f_equal; lia.
    + rewrite IH. do 3 f_equal; lia.
Qed.

End Matching.

(** ** The record reader *)

Section Reader.
Context {U : PyUnicode}.

Lemma records_spec_skip stream :
  records_spec (drop_while sequence_line stream) = records_spec stream.
Proof.
  induction stream as [|line rest IH]; [reflexivity|]. cbn.
  unfold sequence_line at 1. destruct (is_header line) eqn:E; cbn.
  - now rewrite E.
  - assumption.
Qed.

Lemma records_spec_header line rest :
  is_header line = true ->
  records_spec (line :: rest)
  = (rstrip_by (is_char "010") line,
     concat (map strip (take_while sequence_line rest))) :: records_spec rest.
Proof. intros E. cbn [records_spec]. now rewrite E. Qed.

Lemma read_from_spec r stream :
  read_from r stream
  = match header r with
    | Some h =>
        yielded r
        ++ (h, concat (seq_parts r ++ map strip (take_while sequence_line stream)))
        :: records_spec (drop_while sequence_line stream)
    | None => yielded r ++ records_spec stream
    end.
Proof.
  unfold read_from. revert r.
  induction stream as [|line rest IH]; intros [h parts ys]; cbn [fold_left].
  - cbn. destruct h; cbn; now rewrite app_nil_r.
  - rewrite IH. unfold fasta_records_line. cbn [header seq_parts yielded].
    fold (is_header line). cbn [take_while drop_while].
    assert (sequence_line line = negb (is_header line)) as Hs by reflexivity.
    destruct (is_header line) eqn:E; rewrite !Hs;
      cbn [negb header seq_parts yielded].
    + rewrite (records_spec_header _ _ E), records_spec_skip.
      destruct h as [h|]; [|reflexivity].
      cbn [map app]. rewrite <- app_assoc, !app_nil_r. reflexivity.
    + assert (records_spec (line :: rest) = records_spec rest) as ->
        by (cbn [records_spec]; now rewrite E).
      destruct h as [h|]; [|reflexivity].
      cbn [map]. now rewrite <- app_assoc.
Qed.

(** C5: the reader yields one record per line that begins with [>]: the
    header without its trailing newline, with the lines up to the next
    header stripped and joined without separator; the last record is
    yielded at the end of the stream, and a stream without header lines
    yields nothing. *)
Theorem fasta_records_spec (stream : list str) :
  fasta_records stream = records_spec stream
  /\ length (fasta_records stream) = length (List.filter is_header stream)
  /\ (forall line body rest,
        is_header line = true ->
        Forall (fun l => is_header l = false) body ->
        match rest with l :: _ => is_header l = true | [] => True end ->
        fasta_records (line :: body ++ rest)
        = (rstrip_by (is_char "010") line, concat (map strip body))
            :: fasta_records rest)
  /\ (forall junk rest,
        Forall (fun l => is_header l = false) junk ->
        fasta_records (junk ++ rest) = fasta_records rest)
  /\ (Forall (fun l => is_header l = false) stream -> fasta_records stream = []).
Proof.
  assert (forall s, fasta_records s = records_spec s) as Heq.
  { intros s. change (fasta_records s) with (read_from (Reader None [] []) s).
    now rewrite read_from_spec. }
  assert (forall junk rest, Forall (fun l => is_header l = false) junk ->
            records_spec (junk ++ rest) = records_spec rest) as Hjunk.
  { intros junk rest. induction 1 as [|l junk Hl _ IH]; cbn; [reflexivity|].
    now rewrite Hl. }
  split; [apply Heq|]. split; [|split; [|split]].
  - rewrite Heq. induction stream as [|line rest IH]; cbn; [reflexivity|].
    destruct (is_header line); cbn; now rewrite IH.
  - intros line body rest Hline Hbody Hrest. rewrite !Heq. cbn. rewrite Hline.
    f_equal.
    + do 3 f_equal. rewrite take_while_app_all.
      * destruct rest as [|l rest]; cbn; [apply app_nil_r|].
        unfold sequence_line. rewrite Hrest. cbn. apply app_nil_r.
      * eapply Forall_impl; [exact Hbody|]. cbn. unfold sequence_line.
        now intros l ->.
    + now apply Hjunk.
  - intros junk rest H. rewrite !Heq. now apply Hjunk.
  - intros H. rewrite Heq, <- (app_nil_r stream). now rewrite Hjunk.
Qed.

End Reader.

(** ** The target parser *)

Section Parser.
Context {U : PyUnicode}.

Lemma search_or_self_truthy acc : truthy acc = true -> truthy (search_or_self acc) = true.
Proof.
  unfold search_or_self. intros H.
  destruct (re_search ACCESSION_RE acc) as [m|] eqn:E; [|assumption].
  apply re_search_canonical in E as [Hc%canonical_nonempty _].
  now destruct m.
Qed.

Lemma truthy_replace a b (s : str) : truthy (replace a b s) = truthy s.
Proof. now destruct s. Qed.

Lemma _add_normalized acc t :
  _add acc t = Ok (add_normalized (normalize acc) t).
Proof.
  destruct t as [W N]. unfold _add, normalize.
  fold (search_or_self (replace " " "_" (strip acc))).
  set (acc1 := replace " " "_" (strip acc)).
  set (acc2 := if contains "|" acc1 then search_or_self acc1 else acc1).
  fold (search_or_self acc2).
  destruct (truthy (strip acc)) eqn:E; cbn [negb].
  - assert (truthy (search_or_self acc2) = true) as ->.
    { apply search_or_self_truthy. subst acc2.
      assert (truthy acc1 = true) by (subst acc1; now rewrite truthy_replace).
      destruct (contains "|" acc1); [now apply search_or_self_truthy | assumption]. }
    cbn [add_normalized fst snd].
    destruct (contains "." (search_or_self acc2)); [|reflexivity].
    now rewrite index_split_on.
  - destruct (strip acc); [|discriminate]. subst acc2 acc1. cbn. reflexivity.
Qed.

Lemma _add_total acc t : exists t', _add acc t = Ok t'.
Proof. rewrite _add_normalized. eauto. Qed.

Lemma forallb_all_in f (s : str) : forallb f s = true <-> all_in f s.
Proof.
  unfold all_in. rewrite forallb_forall, Forall_forall.
  split; intros H c Hc; apply H; now apply list_elem_of_In.
Qed.

Lemma is_versioned_number_spec t :
  is_versioned_number t = true <-> versioned_number t.
Proof.
  destruct dot_facts as (_ & Hdot & _).
  unfold is_versioned_number, versioned_number. split.
  - pose proof (take_drop_while isdecimal t) as Ht.
    pose proof (take_while_all isdecimal t) as HD.
    destruct (drop_while isdecimal t) as [|c V]; [discriminate|].
    rewrite !andb_true_iff, forallb_all_in, is_char_eq.
    intros (((-> & HDne) & HVne) & HV).
    exists (take_while isdecimal t), V. repeat split; try assumption.
    + now destruct (take_while isdecimal t).
    + now destruct V.
    + now rewrite <- Ht at 1.
  - intros (D & V & HD & HDd & HV & HVd & ->).
    change (py "." ++ V) with (ch "." :: V).
    rewrite drop_while_app_all, take_while_app_all by assumption.
    rewrite drop_while_stop, take_while_stop by assumption.
    rewrite is_char_ch, app_nil_r. cbn [andb].
    apply forallb_all_in in HVd. rewrite HVd.
    destruct D; [congruence|]. destruct V; [congruence|]. reflexivity.
Qed.

(** A token holds no whitespace, so no newline. *)
Lemma nonspace_no_newline (t : str) : none_in isspace t -> ch "010" ∉ t.
Proof.
  intros H Hin. unfold none_in in H. rewrite Forall_forall in H.
  apply H in Hin. rewrite isspace_newline in Hin. discriminate.
Qed.

Lemma token_versioned_number (t : str) :
  none_in isspace t ->
  bool_decide (is_Some (re_match VERSIONED_NUMBER_RE t)) = is_versioned_number t.
Proof.
  intros H%nonspace_no_newline. apply eq_true_iff_eq.
  rewrite bool_decide_eq_true, is_versioned_number_spec.
  now apply re_match_versioned_number.
Qed.

Lemma parse_targets_line_candidate raw t :
  parse_targets_line raw t
  = match line_candidate raw with
    | Some acc => _add acc t
    | None => Ok t
    end.
Proof.
  unfold parse_targets_line, line_candidate, candidate.
  destruct (truthy (strip raw)); cbn [negb orb andb]; [|reflexivity].
  destruct (startswith (strip raw) (py "#")); cbn [negb]; [reflexivity|].
  destruct (re_search ACCESSION_RE (replace " " "_" (strip raw))); [reflexivity|].
  pose proof (split_tokens (strip raw)) as Htok.
  destruct (split (strip raw)) as [|t0 [|t1 toks]]; [reflexivity| |].
  - cbn. destruct (isalpha t0); reflexivity.
  - cbn -[isalpha _add re_match]. inversion Htok as [|? ? _ Htok']; subst.
    inversion Htok' as [|? ? [_ H1] _]; subst.
    destruct (isalpha t0); cbn -[_add re_match]; [|reflexivity].
    rewrite token_versioned_number by assumption.
    destruct (is_versioned_number t1); reflexivity.
Qed.

Lemma parse_targets_line_normalized raw t :
  parse_targets_line raw t
  = Ok (add_normalized (line_candidate raw ≫= normalize) t).
Proof.
  rewrite parse_targets_line_candidate.
  destruct (line_candidate raw); [apply _add_normalized | reflexivity].
Qed.

Lemma parse_targets_lines_total lines t :
  exists t', for_each parse_targets_line lines t = Ok t'.
Proof.
  revert t. induction lines as [|raw lines IH]; intros t; cbn; [eauto|].
  rewrite parse_targets_line_normalized. cbn. apply IH.
Qed.

End Parser.

(** ** The strategies, the two sets and canonical accessions *)

Section Targets.
Context {U : PyUnicode}.

Lemma strip_head (s : str) c r : strip s = c :: r -> isspace c = false.
Proof.
  unfold strip, strip_by.
  destruct (rstrip_by_split isspace (lstrip_by isspace s)) as (b & Hb & _).
  intros E. rewrite E in Hb. unfold lstrip_by in Hb.
  now apply drop_while_head in Hb.
Qed.

Lemma strip_has_token (s : str) :
  strip s <> [] -> exists t0 toks, split (strip s) = t0 :: toks.
Proof.
  destruct (strip s) as [|c r] eqn:E; [congruence|]. intros _.
  apply strip_head in E. rewrite split_token by assumption. eauto.
Qed.

Lemma strip_blank (s : str) : all_in isspace s -> strip s = [].
Proof.
  intros H. unfold strip, strip_by, lstrip_by.
  rewrite <- (app_nil_r s), drop_while_app_all by assumption. reflexivity.
Qed.

Lemma strip_comment (s : str) :
  startswith s (py "#") = true -> startswith (strip s) (py "#") = true.
Proof.
  destruct s as [|c r]; [discriminate|]. intros H.
  assert (c = ch "#") as ->.
  { cbn in H. apply andb_true_iff in H as [H _]. now apply N.eqb_eq in H. }
  assert (isspace (ch "#") = false) as Hc
    by (rewrite isspace_ascii by (vm_compute; reflexivity); reflexivity).
  unfold strip, strip_by, lstrip_by. rewrite drop_while_stop by assumption.
  destruct (rstrip_by_split isspace (ch "#" :: r)) as (b & Hb & Hall).
  destruct (rstrip_by isspace (ch "#" :: r)) as [|c' r'].
  - cbn in Hb. subst b. inversion Hall; congruence.
  - injection Hb as <- _. cbn. rewrite N.eqb_refl. now destruct r'.
Qed.

(** C2: a line that is blank or starts with [#], also once stripped, adds
    nothing; on any other line the parser uses the pattern found in the line with its
    spaces replaced, else the first two tokens joined with an underscore
    when the first is alphabetic and the second is digits, a dot and
    digits, else the first token, which always exists; no line raises an
    error. *)
Theorem parse_targets_line_strategies (raw : str) (t : targets) :
  let line := strip raw in
  let underscored := replace " " "_" line in
  (line = [] \/ startswith line (py "#") = true ->
     parse_targets_line raw t = Ok t)
  /\ (all_in isspace raw \/ startswith raw (py "#") = true ->
      parse_targets_line raw t = Ok t)
  /\ (line <> [] -> startswith line (py "#") = false ->
      (forall m, re_search ACCESSION_RE underscored = Some m ->
         parse_targets_line raw t = _add m t)
      /\ (re_search ACCESSION_RE underscored = None ->
          (forall t0 t1 toks,
             split line = t0 :: t1 :: toks ->
             isalpha t0 = true -> versioned_number t1 ->
             parse_targets_line raw t = _add (t0 ++ py "_" ++ t1) t)
          /\ (forall t0 toks,
                split line = t0 :: toks ->
                ~ (isalpha t0 = true
                   /\ exists t1 toks', toks = t1 :: toks' /\ versioned_number t1) ->
                parse_targets_line raw t = _add t0 t)
          /\ (exists t0 toks, split line = t0 :: toks)))
  /\ (exists t', parse_targets_line raw t = Ok t')
  /\ (forall lines, exists t', for_each parse_targets_line lines t = Ok t').
Proof.
  cbv zeta. rewrite parse_targets_line_candidate. unfold line_candidate.
  split; [|split; [|split; [|split]]].
  - intros [E|E]; rewrite E; [reflexivity|]. now rewrite andb_false_r.
  - intros [E%strip_blank|E%strip_comment]; rewrite E; [reflexivity|].
    now rewrite andb_false_r.
  - intros Hne Hc.
    assert (truthy (strip raw) && negb (startswith (strip raw) (py "#")) = true)
      as -> by (rewrite Hc; destruct (strip raw); [congruence | reflexivity]).
    unfold candidate. split; [|intros Hnone; rewrite Hnone; split; [|split]].
    + now intros m ->.
    + intros t0 t1 toks -> -> Hnum%is_versioned_number_spec. now rewrite Hnum.
    + intros t0 toks -> Hnot. destruct toks as [|t1 toks]; [reflexivity|].
      destruct (isalpha t0 && is_versioned_number t1) eqn:E; [|reflexivity].
      apply andb_true_iff in E as [E1 E2%is_versioned_number_spec].
      exfalso. apply Hnot. split; [assumption|]. eauto.
    + now apply strip_has_token.
  - destruct (truthy (strip raw) && negb (startswith (strip raw) (py "#")));
      [|eauto]. destruct (candidate (strip raw)); [apply _add_total | eauto].
  - intros lines. apply parse_targets_lines_total.
Qed.

Lemma before_no_sep sep (s : str) : none_in (is_char sep) (before sep s).
Proof.
  unfold before. eapply Forall_impl; [apply take_while_all|]. cbn.
  now intros c ->%negb_true_iff.
Qed.

(** A string that holds a dot is what comes before its first dot, the dot
    and the rest. *)
Lemma before_dot_split (s : str) :
  contains "." s = true -> exists version, s = before "." s ++ py "." ++ version.
Proof.
  intros H. unfold before.
  pose proof (take_drop_while (fun c => negb (is_char "." c)) s) as Hs.
  destruct (drop_while (fun c => negb (is_char "." c)) s) as [|c r] eqn:E.
  - exfalso. rewrite app_nil_r in Hs.
    pose proof (take_while_all (fun c => negb (is_char "." c)) s) as Hall.
    rewrite Hs in Hall. assert (contains "." s = false); [|congruence].
    apply contains_false. eapply Forall_impl; [exact Hall|]. cbn.
    now intros c ->%negb_true_iff.
  - apply drop_while_head in E. apply negb_false_iff, is_char_eq in E. subst c.
    exists r. symmetry. exact Hs.
Qed.

Lemma add_normalized_consistent n t :
  consistent t -> consistent (add_normalized n t).
Proof.
  intros Ht. destruct n as [acc|]; [|assumption]. destruct t as [W N].
  unfold add_normalized. cbn [fst snd].
  destruct (contains "." acc) eqn:E; intros v Hv; cbn [fst snd] in *.
  - apply elem_of_union in Hv as [Hv|Hv%elem_of_singleton].
    + destruct (Ht v Hv) as [H1 H2].
      split; [apply elem_of_union; now left | assumption].
    + subst v. split; [|now apply before_dot_split].
      apply elem_of_union; right. now apply elem_of_singleton.
  - destruct (Ht v Hv) as [H1 H2].
    split; [apply elem_of_union; now left | assumption].
Qed.

Lemma parse_targets_lines_consistent lines t t' :
  consistent t -> for_each parse_targets_line lines t = Ok t' -> consistent t'.
Proof.
  revert t. induction lines as [|raw lines IH]; intros t Ht; cbn.
  - now intros [= <-].
  - rewrite parse_targets_line_normalized. cbn. apply IH.
    now apply add_normalized_consistent.
Qed.

(** C4: a normalized candidate that holds a dot goes to the versioned set
    and its part before the first dot to the unversioned set; one without a
    dot goes to the unversioned set only; so every versioned target of a
    list is its unversioned form, a dot and a version, and that unversioned
    form is an unversioned target. *)
Theorem parse_targets_sets_consistent :
  (forall acc W N c,
     normalize acc = Some c -> contains "." c = true ->
     _add acc (W, N) = Ok (W ∪ {[ c ]}, N ∪ {[ before "." c ]}))
  /\ (forall acc W N c,
        normalize acc = Some c -> contains "." c = false ->
        _add acc (W, N) = Ok (W, N ∪ {[ c ]}))
  /\ (forall acc t, normalize acc = None -> _add acc t = Ok t)
  /\ (forall lines, exists t,
        for_each parse_targets_line lines no_targets = Ok t
        /\ forall v, v ∈ t.1 ->
             before "." v ∈ t.2
             /\ none_in (is_char ".") (before "." v)
             /\ exists version, v = before "." v ++ py "." ++ version).
Proof.
  repeat split.
  - intros acc W N c Hn Hc. rewrite _add_normalized, Hn. cbn. now rewrite Hc.
  - intros acc W N c Hn Hc. rewrite _add_normalized, Hn. cbn. now rewrite Hc.
  - intros acc t Hn. now rewrite _add_normalized, Hn.
  - intros lines.
    destruct (parse_targets_lines_total lines no_targets) as [t Ht].
    exists t. split; [assumption|]. intros v Hv.
    assert (consistent no_targets) as H0 by (intros ? ?; set_solver).
    destruct (parse_targets_lines_consistent _ _ _ H0 Ht v Hv) as [H1 H2].
    repeat split; [assumption | apply before_no_sep | assumption].
Qed.

(** The characters of a canonical accession. *)
Lemma accession_chars P D V c :
  accession_parts P D V -> c ∈ accession P D V ->
  upper c = true \/ isdecimal c = true \/ c = ch "_" \/ c = ch ".".
Proof.
  intros (_ & HP & _ & HD & _ & HV). unfold accession, all_in in *.
  rewrite Forall_forall in HP, HD, HV.
  rewrite !elem_of_app. change (py "_") with [ch "_"]. change (py ".") with [ch "."].
  rewrite !list_elem_of_singleton. intros [H|[H|[H|[H|H]]]]; auto.
Qed.

Lemma accession_avoids (a : ascii) P D V :
  accession_parts P D V ->
  (ch a < 128)%N -> upper (ch a) = false -> ascii_isdecimal (ch a) = false ->
  ch a <> ch "_" -> ch a <> ch "." ->
  none_in (is_char a) (accession P D V).
Proof.
  intros Hp Hlt Hu Hd H1 H2. apply Forall_forall. intros c Hc.
  destruct (is_char a c) eqn:E; [|reflexivity]. apply is_char_eq in E. subst c.
  apply (accession_chars _ _ _ _ Hp) in Hc as [H|[H|[H|H]]]; try congruence.
  rewrite isdecimal_ascii in H by assumption. congruence.
Qed.

Lemma accession_no_space P D V :
  accession_parts P D V -> none_in isspace (accession P D V).
Proof.
  intros Hp. apply Forall_forall. intros c Hc.
  destruct underscore_facts as (Hu & _). destruct dot_facts as (Hd & _).
  apply (accession_chars _ _ _ _ Hp) in Hc as [H|[H|[->| ->]]]; try assumption.
  - now apply upper_not_isspace.
  - now apply isdecimal_not_isspace.
Qed.

Lemma search_or_self_accession P D V :
  accession_parts P D V -> search_or_self (accession P D V) = accession P D V.
Proof.
  intros Hp. unfold search_or_self.
  rewrite <- (app_nil_r (accession P D V)) at 1.
  now rewrite re_search_accession.
Qed.

Lemma normalize_accession P D V :
  accession_parts P D V -> normalize (accession P D V) = Some (accession P D V).
Proof.
  intros Hp. unfold normalize, strip.
  rewrite strip_by_id by now apply accession_no_space.
  rewrite replace_id
    by (apply accession_avoids; try assumption; try reflexivity; discriminate).
  assert (contains "|" (accession P D V) = false) as ->.
  { apply contains_false, accession_avoids; try assumption; try reflexivity;
      discriminate. }
  rewrite search_or_self_accession by assumption.
  assert (accession P D V <> []) as Hne
    by (apply canonical_nonempty; now exists P, D, V).
  destruct (accession P D V); [congruence | reflexivity].
Qed.

Lemma contains_dot_accession P D V : contains "." (accession P D V) = true.
Proof.
  apply contains_true. unfold accession. rewrite !elem_of_app.
  right. right. right. left. change (py ".") with [ch "."].
  now apply list_elem_of_singleton.
Qed.

Lemma _add_accession P D V W N :
  accession_parts P D V ->
  _add (accession P D V) (W, N)
  = Ok (W ∪ {[ accession P D V ]}, N ∪ {[ P ++ py "_" ++ D ]}).
Proof.
  intros Hp. rewrite _add_normalized, normalize_accession by assumption.
  cbn [add_normalized fst snd].
  now rewrite contains_dot_accession, before_accession.
Qed.

(** C8: normalizing a canonical accession PREFIX_DIGITS.VERSION yields
    itself: [_add] puts exactly that string in the versioned set and its
    part before the dot in the unversioned set. *)
Theorem add_canonical_accession (P D V : str) (W N : gset str) :
  accession_parts P D V ->
  normalize (accession P D V) = Some (accession P D V)
  /\ (normalize (accession P D V) ≫= normalize) = Some (accession P D V)
  /\ _add (accession P D V) (W, N)
     = Ok (W ∪ {[ accession P D V ]}, N ∪ {[ P ++ py "_" ++ D ]}).
Proof.
  intros Hp. pose proof (normalize_accession P D V Hp) as Hn.
  split; [assumption|]. split; [now rewrite Hn|]. now apply _add_accession.
Qed.

End Targets.

(** ** Runs of [filter_fasta] and [main] *)

Section Running.
Context {U : PyUnicode}.

Lemma open_r_readfile path w :
  open_r path w = match readfile w path with
                  | Some content => (Ok content, w)
                  | None => (Raise OSError, w)
                  end.
Proof.
  unfold open_r, readfile. destruct (files w !! file_of w path); [|reflexivity].
  now destruct (readable w path).
Qed.

Lemma unavailable_readfile w path : unavailable w path <-> readfile w path = None.
Proof.
  unfold unavailable, readfile.
  destruct (files w !! file_of w path) as [content|].
  - destruct (readable w path); split; try discriminate; auto.
    intros [|]; discriminate.
  - split; auto.
Qed.

Lemma parse_targets_eq list_path w :
  parse_targets list_path w
  = match readfile w list_path with
    | Some lines => (for_each parse_targets_line lines no_targets, w)
    | None => (Raise OSError, w)
    end.
Proof.
  unfold parse_targets. rewrite io_bind_eq, open_r_readfile.
  now destruct (readfile w list_path).
Qed.

(** Opening the output gives standard output or a file, and leaves the
    standard streams and the permissions as they are. *)
Lemma open_out_cases out_path w :
  (open_out out_path w = (Ok Stdout, w)
   /\ match out_path with Some p => to_file p = false | None => True end)
  \/ (exists p, out_path = Some p /\ to_file p = true
      /\ if writable w p
         then open_out out_path w
              = (Ok (File (file_of w p)),
                 World (<[file_of w p := []]> (files w)) (file_of w)
                       (readable w) (writable w) (stdout w) (stderr w))
         else open_out out_path w = (Raise OSError, w)).
Proof.
  unfold open_out, to_file. destruct out_path as [p|]; [|now left].
  destruct (negb (truthy p) || bool_decide (p = py "-")) eqn:E; [now left|].
  right. exists p. rewrite E. repeat split. unfold open_w.
  now destruct (writable w p).
Qed.

Lemma open_out_stderr out_path w r w' :
  open_out out_path w = (r, w') ->
  stderr w' = stderr w /\ readable w' = readable w /\ r <> Ok Stderr.
Proof.
  destruct (open_out_cases out_path w) as [[-> _]|(p & -> & _ & H)].
  - intros [= <- <-]. now repeat split.
  - destruct (writable w p); rewrite H; intros [= <- <-]; now repeat split.
Qed.

Lemma write_stderr h line w : h <> Stderr -> stderr (write h line w) = stderr w.
Proof. now destruct h. Qed.

Lemma written_stderr h records w :
  h <> Stderr ->
  stderr (fold_left (fun w record => written h record w) records w) = stderr w.
Proof.
  intros Hh. revert w. induction records as [|record records IH]; intros w;
    [reflexivity|].
  cbn [fold_left]. rewrite IH. unfold written.
  generalize (range0 (length record.2) 60). intros l.
  assert (forall w0, stderr (fold_left
            (fun w i => write h (take 60 (drop i record.2) ++ [ch "010"]) w) l w0)
          = stderr w0) as ->.
  { induction l as [|i l IHl]; intros w0; [reflexivity|]. cbn [fold_left].
    rewrite IHl. now apply write_stderr. }
  now apply write_stderr.
Qed.

(** The run of [filter_fasta], by what it can open. *)
Lemma filter_fasta_eq fasta_path list_path out_path ignore_version w :
  filter_fasta fasta_path list_path out_path ignore_version w
  = match readfile w list_path with
    | None => (Raise OSError, w)
    | Some lines =>
        match for_each parse_targets_line lines no_targets with
        | Raise e => (Raise e, w)
        | Ok t =>
            match open_out out_path w with
            | (Raise e, w1) => (Raise e, w1)
            | (Ok out_fh, w1) =>
                match readfile w1 fasta_path with
                | None => (Raise OSError, w1)
                | Some fh =>
                    let kept :=
                      kept_records ignore_version t (fasta_records fh) in
                    (Ok (length kept, length (fasta_records fh)),
                     fold_left (fun w record => written out_fh record w) kept w1)
                end
            end
        end
    end.
Proof.
  unfold filter_fasta. rewrite io_bind_eq, parse_targets_eq.
  destruct (readfile w list_path) as [lines|]; [|reflexivity].
  destruct (for_each parse_targets_line lines no_targets) as [t|e]; [|reflexivity].
  rewrite io_bind_eq.
  destruct (open_out out_path w) as [[out_fh|e] w1]; [|reflexivity].
  rewrite io_bind_eq, open_r_readfile.
  destruct (readfile w1 fasta_path) as [fh|]; [|reflexivity].
  now rewrite filter_fasta_loop.
Qed.

(** A run of [filter_fasta] fails with [OSError] only, and prints nothing
    to the diagnostic stream. *)
Lemma filter_fasta_outcome fasta_path list_path out_path ignore_version w r w' :
  filter_fasta fasta_path list_path out_path ignore_version w = (r, w') ->
  stderr w' = stderr w /\ forall e, r = Raise e -> e = OSError.
Proof.
  rewrite filter_fasta_eq.
  destruct (readfile w list_path) as [lines|];
    [|intros [= <- <-]; split; [reflexivity | now intros e [= <-]]].
  destruct (parse_targets_lines_total lines no_targets) as [t ->].
  destruct (open_out out_path w) as [[out_fh|e] w1] eqn:Eo;
    pose proof (open_out_stderr _ _ _ _ Eo) as (Hs & _ & Hh).
  - destruct (readfile w1 fasta_path) as [fh|]; cbv zeta; intros [= <- <-].
    + rewrite written_stderr by congruence. split; [assumption | discriminate].
    + split; [assumption | now intros e [= <-]].
  - intros [= <- <-]. split; [assumption|].
    destruct (open_out_cases out_path w) as [[H _]|(p & -> & _ & H)].
    + intros e' [= <-]. rewrite H in Eo. discriminate.
    + intros e' [= <-]. destruct (writable w p); rewrite H in Eo; congruence.
Qed.

Lemma main_eq args w :
  main args w
  = match filter_fasta (arg_fasta args) (arg_list args) (Some (arg_out args))
                       (arg_ignore_version args) w with
    | (Ok (kept, total), w') =>
        (Ok 0%Z, write Stderr (summary kept total ++ newline) w')
    | (Raise e, w') => (Raise e, w')
    end.
Proof.
  unfold main. rewrite io_bind_eq.
  destruct (filter_fasta _ _ _ _ w) as [[[kept total]|e] w']; reflexivity.
Qed.

End Running.

(** ** Targets without a version *)

Section Unversioned.
Context {U : PyUnicode}.

Lemma unversioned_lines lines W N :
  (forall raw n, raw ∈ lines -> line_candidate raw ≫= normalize = Some n ->
                 contains "." n = false) ->
  exists N', for_each parse_targets_line lines (W, N) = Ok (W, N').
Proof.
  revert N. induction lines as [|raw lines IH]; intros N H; cbn [for_each].
  - now exists N.
  - rewrite parse_targets_line_normalized.
    assert (exists N1, add_normalized (line_candidate raw ≫= normalize) (W, N)
                       = (W, N1)) as [N1 ->].
    { destruct (line_candidate raw ≫= normalize) as [n|] eqn:E; cbn; [|eauto].
      rewrite (H raw n); [eauto | apply list_elem_of_here | assumption]. }
    apply IH. intros raw' n' Hin. apply H. now apply list_elem_of_further.
Qed.

Lemma matched_no_version N header : matched false (∅, N) header = false.
Proof.
  unfold matched. destruct (extract_spec header) as [[wv|] nv]; cbn; [|reflexivity].
  rewrite orb_false_r. apply bool_decide_eq_false, not_elem_of_empty.
Qed.

Lemma kept_records_no_version N records : kept_records false (∅, N) records = [].
Proof.
  unfold kept_records. induction records as [|record records IH]; cbn;
    [reflexivity|]. now rewrite matched_no_version.
Qed.

(** C7: when no line of the list yields a normalized candidate that holds
    a dot, the versioned set is empty, and with [ignore_version] unset no
    record matches: the run keeps 0 records. *)
Theorem no_versioned_target_keeps_nothing (lines : list str) :
  (forall raw n, raw ∈ lines -> line_candidate raw ≫= normalize = Some n ->
                 contains "." n = false) ->
  (exists N, for_each parse_targets_line lines no_targets = Ok (∅, N))
  /\ (forall N header, record_match false (∅, N) header = Ok false)
  /\ (forall w fasta_path list_path out_path r w',
        readfile w list_path = Some lines ->
        filter_fasta fasta_path list_path out_path false w = (r, w') ->
        r = Raise OSError \/ exists total, r = Ok (0%nat, total))
  /\ (forall w fasta_path list_path fh,
        readfile w list_path = Some lines ->
        readfile w fasta_path = Some fh ->
        filter_fasta fasta_path list_path None false w
        = (Ok (0%nat, length (fasta_records fh)), w)).
Proof.
  intros H. destruct (unversioned_lines lines ∅ ∅ H) as [N HN].
  split; [now exists N|]. split; [|split].
  - intros N' header. now rewrite record_match_matched, matched_no_version.
  - intros w fasta_path list_path out_path r w' Hl.
    rewrite filter_fasta_eq, Hl. unfold no_targets. rewrite HN.
    destruct (open_out out_path w) as [[out_fh|e] w1] eqn:Eo.
    + destruct (readfile w1 fasta_path) as [fh|]; cbv zeta; intros [= <- <-].
      * right. rewrite kept_records_no_version. eauto.
      * now left.
    + intros [= <- <-]. left.
      destruct (open_out_cases out_path w) as [[E _]|(p & -> & _ & E)].
      * rewrite E in Eo. discriminate.
      * destruct (writable w p); rewrite E in Eo; congruence.
  - intros w fasta_path list_path fh Hl Hf.
    rewrite filter_fasta_eq, Hl. unfold no_targets. rewrite HN.
    cbn [open_out mret io_ret]. rewrite Hf. cbv zeta.
    now rewrite kept_records_no_version.
Qed.

End Unversioned.

(** ** Matching across versions *)

Section Versions.
Context {U : PyUnicode}.

Lemma give_back_ext k k' lo n s :
  (forall j, k j = k' j) -> give_back k lo n s = give_back k' lo n s.
Proof.
  intros H. induction n as [|n IH];
    rewrite (give_back_eq k), (give_back_eq k'), H;
    [reflexivity | now rewrite IH].
Qed.

Lemma match_here_pos p pos pos' s :
  anchor_free p = true -> match_here p pos s = match_here p pos' s.
Proof.
  revert pos pos' s. induction p as [|[cls lo hi| |] p IH]; intros pos pos' s;
    cbn; try discriminate; [reflexivity|].
  intros Hp. apply give_back_ext. intros j. now apply IH.
Qed.

Lemma search_from_pos p pos pos' s :
  anchor_free p = true -> search_from p pos s = search_from p pos' s.
Proof.
  intros Hp. revert pos pos'. induction s as [|c s IH]; intros pos pos'; cbn.
  - now rewrite (match_here_pos p pos pos').
  - rewrite (match_here_pos p pos pos') by assumption.
    now rewrite (IH (S pos) (S pos')).
Qed.

Lemma match_here_not_upper pos c s :
  upper c = false -> match_here ACCESSION_RE pos (c :: s) = None.
Proof.
  intros Hc. unfold ACCESSION_RE. cbn [match_here]. unfold greedy.
  now rewrite take_while_stop.
Qed.

(** No match starts before the first capital letter. *)
Lemma re_search_skip pre s :
  none_in upper pre -> re_search ACCESSION_RE (pre ++ s) = re_search ACCESSION_RE s.
Proof.
  unfold re_search. induction 1 as [|c pre Hc _ IH]; [reflexivity|].
  cbn [app search_from]. rewrite match_here_not_upper by assumption.
  now rewrite (search_from_pos _ 1 0).
Qed.

Lemma take_while_drop_while_nil (f : char -> bool) (s : str) :
  take_while f (drop_while f s) = [].
Proof.
  destruct (drop_while f s) as [|c r] eqn:E; [reflexivity|].
  apply drop_while_head in E. cbn. now rewrite E.
Qed.

(** The accession found in a header that has [P_D.V] after text without
    capital letters: the version takes the digits that follow. *)
Lemma re_search_header_accession P D V pre rest :
  accession_parts P D V -> none_in upper pre ->
  re_search ACCESSION_RE (remainder (py ">" ++ pre ++ accession P D V ++ rest))
  = Some (accession P D (V ++ take_while isdecimal rest)).
Proof.
  intros Hp Hpre.
  assert (accession_parts P D (V ++ take_while isdecimal rest)) as Hp'.
  { destruct Hp as (H1 & H2 & H3 & H4 & H5 & H6).
    split; [assumption|]. repeat split; try assumption.
    - destruct V; [congruence | discriminate].
    - apply Forall_app. split; [assumption | apply take_while_all]. }
  change (remainder (py ">" ++ pre ++ accession P D V ++ rest))
    with (pre ++ accession P D V ++ rest).
  rewrite re_search_skip by assumption.
  assert (accession P D V ++ rest
          = accession P D (V ++ take_while isdecimal rest)
              ++ drop_while isdecimal rest) as ->.
  { unfold accession. rewrite <- !app_assoc. now rewrite take_drop_while. }
  apply re_search_accession; [assumption | apply take_while_drop_while_nil].
Qed.

Lemma line_candidate_accession P D V :
  accession_parts P D V -> line_candidate (accession P D V) = Some (accession P D V).
Proof.
  intros Hp. unfold line_candidate, strip.
  rewrite strip_by_id by now apply accession_no_space.
  assert (startswith (accession P D V) (py "#") = false) as ->.
  { destruct Hp as ((HP & _) & Hu & _). unfold accession.
    destruct P as [|c P]; cbn in HP; [lia|]. inversion Hu as [|? ? Hc _]; subst.
    cbn. apply upper_bounds in Hc. apply andb_false_iff. left.
    apply N.eqb_neq. unfold ch. cbn. lia. }
  assert (accession P D V <> []) as Hne
    by (apply canonical_nonempty; now exists P, D, V).
  destruct (accession P D V) as [|c r] eqn:E; [congruence|].
  cbn [truthy negb andb]. rewrite <- E. unfold candidate.
  rewrite replace_id
    by (apply accession_avoids; try assumption; try reflexivity; discriminate).
  rewrite <- (app_nil_r (accession P D V)) at 1.
  now rewrite re_search_accession.
Qed.

(** A list that is one canonical accession gives that accession and its
    unversioned form as the targets. *)
Lemma parse_one_accession P D V :
  accession_parts P D V ->
  for_each parse_targets_line [accession P D V] no_targets
  = Ok ({[ accession P D V ]}, {[ P ++ py "_" ++ D ]}).
Proof.
  intros Hp. cbn [for_each]. unfold no_targets.
  rewrite parse_targets_line_candidate, line_candidate_accession by assumption.
  rewrite _add_accession by assumption. cbn.
  now rewrite !(left_id_L ∅ (∪)).
Qed.

Lemma NC_001806_parts V :
  V <> [] -> all_in isdecimal V -> accession_parts (py "NC") (py "001806") V.
Proof.
  intros HV HVd. repeat split; try assumption; try discriminate.
  - cbn. lia.
  - cbn. lia.
  - repeat constructor.
  - repeat constructor; apply isdecimal_digit; reflexivity.
Qed.

(** Against the target NC_001806.1, a header whose accession is NC_001806
    with another version matches exactly when versions are ignored. *)
Lemma record_match_other_version header V ignore_version :
  re_search ACCESSION_RE (remainder header) = Some (py "NC_001806." ++ V) ->
  V <> py "1" ->
  record_match ignore_version ({[ py "NC_001806.1" ]}, {[ py "NC_001806" ]}) header
  = Ok ignore_version.
Proof.
  intros Hs HV. rewrite record_match_matched. unfold matched, extract_spec.
  rewrite Hs. cbn [found fst snd memberb].
  assert (before "." (py "NC_001806." ++ V) = py "NC_001806") as ->.
  { change (py "NC_001806." ++ V) with (py "NC_001806" ++ ch "." :: V).
    apply before_app. repeat constructor. }
  assert (bool_decide (py "NC_001806." ++ V
                       ∈ ({[ py "NC_001806.1" ]} : gset str)) = false) as ->.
  { apply bool_decide_eq_false. rewrite elem_of_singleton. intros E.
    apply HV. now apply (app_inv_head (py "NC_001806.")). }
  assert (bool_decide (py "NC_001806" ∈ ({[ py "NC_001806" ]} : gset str)) = true)
    as -> by now apply bool_decide_eq_true, elem_of_singleton.
  now rewrite andb_true_r.
Qed.

(** C6, as amended: the list target NC_001806.1 gives the targets
    NC_001806.1 and NC_001806; a record whose header has as its accession,
    the first match of the pattern in it, NC_001806 with another version,
    such as NC_001806.2, matches when [ignore_version] is set and does not
    match when it is unset.  This is so for every header that holds
    NC_001806.2 after text without capital letters; a header that only
    holds it after another accession is compared by that other one. *)
Theorem version_insensitive_match :
  exists t,
    for_each parse_targets_line [py "NC_001806.1"] no_targets = Ok t
    /\ t = ({[ py "NC_001806.1" ]}, {[ py "NC_001806" ]})
    /\ (forall header V,
          re_search ACCESSION_RE (remainder header) = Some (py "NC_001806." ++ V) ->
          V <> py "1" ->
          record_match true t header = Ok true
          /\ record_match false t header = Ok false)
    /\ (forall pre rest,
          none_in upper pre ->
          record_match true t (py ">" ++ pre ++ py "NC_001806.2" ++ rest) = Ok true
          /\ record_match false t (py ">" ++ pre ++ py "NC_001806.2" ++ rest)
             = Ok false).
Proof.
  assert (all_in isdecimal (py "1") /\ all_in isdecimal (py "2")) as [H1 H2]
    by (split; repeat constructor; apply isdecimal_digit; reflexivity).
  eexists. split; [|split; [reflexivity|split]].
  - apply (parse_one_accession (py "NC") (py "001806") (py "1")).
    now apply NC_001806_parts.
  - intros header V Hs HV.
    split; apply (record_match_other_version _ V); assumption.
  - intros pre rest Hpre.
    pose proof (re_search_header_accession (py "NC") (py "001806") (py "2")
                  pre rest (NC_001806_parts (py "2") ltac:(discriminate) H2) Hpre)
      as Hs.
    change (accession (py "NC") (py "001806") (py "2")) with (py "NC_001806.2") in Hs.
    change (accession (py "NC") (py "001806") (py "2" ++ take_while isdecimal rest))
      with (py "NC_001806." ++ (py "2" ++ take_while isdecimal rest)) in Hs.
    split; apply (record_match_other_version _ _ _ Hs); discriminate.
Qed.

End Versions.

(** ** Failures of a run *)

Section Failures.
Context {U : PyUnicode}.

(** A path that could not be read before a file is created or emptied
    cannot be read after it, unless it names that file. *)
Lemma readfile_after_open_w w file path :
  unavailable w path -> file <> file_of w path \/ readable w path = false ->
  readfile (World (<[file := []]> (files w)) (file_of w) (readable w) (writable w)
                  (stdout w) (stderr w)) path = None.
Proof.
  intros Hu Hp. unfold readfile. cbn [files file_of readable].
  destruct (readable w path) eqn:Er.
  - destruct Hp as [Hp|Hp]; [|discriminate].
    rewrite lookup_insert_ne by assumption.
    destruct Hu as [->|Hu]; [reflexivity | congruence].
  - now destruct (<[file:=[]]> (files w) !! file_of w path).
Qed.

(** C9, as amended: a list path that names no file or may not be read, an
    output path that may not be written, or a FASTA path that may not be
    read, or that names no file while the output goes to standard output or
    to another file than the one the FASTA path names, ends the run with
    [OSError]; a run that fails prints no summary, and a run that succeeds
    returns 0 after printing it.  Whether the output is another file is a
    matter of the files the two paths name, not of the paths as strings. *)
Theorem io_failure_aborts_before_summary (args : namespace) (w : world) :
  (unavailable w (arg_list args)
   \/ (to_file (arg_out args) = true /\ writable w (arg_out args) = false)
   \/ (unavailable w (arg_fasta args)
       /\ (to_file (arg_out args) = false
           \/ file_of w (arg_out args) <> file_of w (arg_fasta args)
           \/ readable w (arg_fasta args) = false)) ->
   (main args w).1 = Raise OSError /\ stderr (main args w).2 = stderr w)
  /\ (forall e, (main args w).1 = Raise e ->
        e = OSError /\ stderr (main args w).2 = stderr w)
  /\ (forall code, (main args w).1 = Ok code ->
        code = 0%Z
        /\ exists kept total,
             stderr (main args w).2 = stderr w ++ [summary kept total ++ newline]).
Proof.
  assert (forall e, (main args w).1 = Raise e ->
            e = OSError /\ stderr (main args w).2 = stderr w) as Hfail.
  { intros e. rewrite main_eq.
    destruct (filter_fasta _ _ _ _ w) as [[[kept total]|e'] w'] eqn:E;
      [discriminate|].
    apply filter_fasta_outcome in E as [Hs He]. cbn. intros [= <-].
    split; [now apply He | assumption]. }
  split; [|split; [exact Hfail|]].
  - intros H.
    assert (exists e, (main args w).1 = Raise e) as [e He].
    { rewrite main_eq, filter_fasta_eq.
      destruct (readfile w (arg_list args)) as [lines|] eqn:El; [|cbn; eauto].
      destruct (parse_targets_lines_total lines no_targets) as [t ->].
      destruct H as [H|[[Hf Hw]|[Hu H]]].
      - apply unavailable_readfile in H. congruence.
      - destruct (open_out_cases (Some (arg_out args)) w)
          as [[_ E]|(p & [= <-] & _ & E)]; [congruence|].
        rewrite Hw in E. rewrite E. cbn. eauto.
      - destruct (open_out_cases (Some (arg_out args)) w)
          as [[E Ef]|(p & [= <-] & Ef & E)].
        + rewrite E. apply unavailable_readfile in Hu. rewrite Hu. cbn. eauto.
        + destruct (writable w (arg_out args)); rewrite E; [|cbn; eauto].
          rewrite readfile_after_open_w; [cbn; eauto | assumption |].
          destruct H as [H|[H|H]]; [congruence | now left | now right]. }
    destruct (Hfail e He) as [-> Hs]. now split.
  - intros code. rewrite main_eq.
    destruct (filter_fasta _ _ _ _ w) as [[[kept total]|e'] w'] eqn:E;
      [|discriminate].
    apply filter_fasta_outcome in E as [Hs _]. cbn. intros [= <-].
    split; [reflexivity|]. exists kept, total. now rewrite Hs.
Qed.

End Failures.

(** ** The properties at concrete inputs *)

Section Instances.

(** C9 as stated fails: the FASTA file is missing, but the output path names
    it, so opening the output creates it and the run succeeds, printing its
    summary. *)
Lemma missing_fasta_created_by_output :
  unavailable one_target_world (py "new.fasta")
  /\ (main (Namespace (py "new.fasta") (py "list.txt") (py "new.fasta") true)
           one_target_world).1 = Ok 0%Z
  /\ stderr (main (Namespace (py "new.fasta") (py "list.txt") (py "new.fasta") true)
                  one_target_world).2
     = [py "[filter_fasta_by_list] Kept 0 / 0 records" ++ newline].
Proof.
  split; [left; vm_compute; reflexivity|].
  split; vm_compute; reflexivity.
Qed.

(** The same with two paths for one file: [./new.fasta] is the missing
    FASTA file [new.fasta]. *)
Example fasta_created_through_other_path :
  unavailable one_target_world (py "new.fasta")
  /\ py "./new.fasta" <> py "new.fasta"
  /\ (main (Namespace (py "new.fasta") (py "list.txt") (py "./new.fasta") true)
           one_target_world).1 = Ok 0%Z
  /\ stderr (main (Namespace (py "new.fasta") (py "list.txt") (py "./new.fasta")
                             true) one_target_world).2
     = [py "[filter_fasta_by_list] Kept 0 / 0 records" ++ newline].
Proof.
  split; [left; vm_compute; reflexivity|].
  split; [discriminate|].
  split; vm_compute; reflexivity.
Qed.

(** C6 as stated fails: a header may hold NC_001806.2 after another
    accession, and the record is then compared by that first accession.
    With the targets of the list line NC_001806.1, the first header below
    does not match although versions are ignored, and the second matches
    although they are not. *)
Lemma later_accession_is_not_compared :
  for_each parse_targets_line [py "NC_001806.1"] no_targets
  = Ok ({[ py "NC_001806.1" ]}, {[ py "NC_001806" ]})
  /\ substring (py "NC_001806.2") (py ">XY_5.5 similar to NC_001806.2")
  /\ record_match true ({[ py "NC_001806.1" ]}, {[ py "NC_001806" ]})
                  (py ">XY_5.5 similar to NC_001806.2") = Ok false
  /\ substring (py "NC_001806.2") (py ">NC_001806.1 supersedes NC_001806.2")
  /\ record_match false ({[ py "NC_001806.1" ]}, {[ py "NC_001806" ]})
                  (py ">NC_001806.1 supersedes NC_001806.2") = Ok true.
Proof.
  split; [vm_compute; reflexivity|].
  split; [exists (py ">XY_5.5 similar to "), []; reflexivity|].
  split; [vm_compute; reflexivity|].
  split; [exists (py ">NC_001806.1 supersedes "), []; reflexivity|].
  vm_compute. reflexivity.
Qed.

Lemma record_kept_iff_witness :
  record_match true ({[ py "NC_001806.1" ]}, {[ py "NC_001806" ]})
               (py ">NC_001806.2 Human herpesvirus 1") = Ok true.
Proof.
  destruct (record_kept_iff true ({[ py "NC_001806.1" ]}, {[ py "NC_001806" ]})
              (py ">NC_001806.2 Human herpesvirus 1") (py "ACGT") Stdout 0 0
              empty_world) as (wv & nv & b & He & Hm & Hiff & _).
  rewrite Hm. f_equal. apply Hiff. right. split; [reflexivity|].
  vm_compute in He. injection He as <- <-.
  exists (py "NC_001806"). split; [reflexivity|].
  apply elem_of_singleton. reflexivity.
Defined.

Lemma parse_targets_line_strategies_witness :
  parse_targets_line (py "nc  001806.1 x") no_targets
  = _add (py "nc_001806.1") no_targets.
Proof.
  destruct (parse_targets_line_strategies (py "nc  001806.1 x") no_targets)
    as (_ & _ & H & _).
  destruct H as (_ & H); [vm_compute; discriminate | vm_compute; reflexivity|].
  destruct H as (H & _); [vm_compute; reflexivity|].
  apply (H (py "nc") (py "001806.1") [py "x"]);
    [vm_compute; reflexivity | vm_compute; reflexivity|].
  exists (py "001806"), (py "1").
  repeat split; try discriminate; repeat constructor.
Defined.

Lemma extract_header_accession_algorithm_witness :
  extract_header_accession (py ">ref|NC_001806.1| Human herpesvirus 1")
  = Ok (Some (py "NC_001806.1"), Some (before "." (py "NC_001806.1"))).
Proof.
  destruct (extract_header_accession_algorithm
              (py ">ref|NC_001806.1| Human herpesvirus 1")) as (_ & H & _).
  apply H. vm_compute. reflexivity.
Defined.

Lemma parse_targets_sets_consistent_witness :
  _add (py " ref|NC_001806.1| ") (∅, ∅)
  = Ok (∅ ∪ {[ py "NC_001806.1" ]}, ∅ ∪ {[ before "." (py "NC_001806.1") ]}).
Proof.
  apply (proj1 parse_targets_sets_consistent); vm_compute; reflexivity.
Defined.

Lemma fasta_records_spec_witness :
  fasta_records ((py ">h1 x" ++ newline) :: [py " AC "; py "GT"] ++ [py ">h2"])
  = (py ">h1 x", py "ACGT") :: fasta_records [py ">h2"].
Proof.
  destruct (fasta_records_spec []) as (_ & _ & H & _).
  apply (H (py ">h1 x" ++ newline) [py " AC "; py "GT"] [py ">h2"]).
  - reflexivity.
  - repeat constructor.
  - reflexivity.
Defined.

Lemma version_insensitive_match_witness :
  record_match true ({[ py "NC_001806.1" ]}, {[ py "NC_001806" ]})
               (py ">ref|NC_001806.2| Human herpesvirus 1") = Ok true
  /\ record_match false ({[ py "NC_001806.1" ]}, {[ py "NC_001806" ]})
                  (py ">ref|NC_001806.2| Human herpesvirus 1") = Ok false.
Proof.
  destruct version_insensitive_match as (t & _ & -> & _ & H).
  apply (H (py "ref|") (py "| Human herpesvirus 1")). repeat constructor.
Defined.

Lemma no_versioned_target_keeps_nothing_witness :
  filter_fasta (py "v.fasta") (py "list.txt") None false
    (World {[ py "list.txt" := [py "herpesvirus"; py "# NC_001806.1"];
              py "v.fasta" := [py ">NC_001806.1 x"; py "ACGT"] ]}
           same_dir (fun _ => true) (fun _ => true) [] [])
  = (Ok (0%nat, 1%nat),
     World {[ py "list.txt" := [py "herpesvirus"; py "# NC_001806.1"];
              py "v.fasta" := [py ">NC_001806.1 x"; py "ACGT"] ]}
           same_dir (fun _ => true) (fun _ => true) [] []).
Proof.
  destruct (no_versioned_target_keeps_nothing
              [py "herpesvirus"; py "# NC_001806.1"]) as (_ & _ & _ & H).
  - intros raw n Hin Hn.
    apply elem_of_cons in Hin as [->|Hin];
      [|apply elem_of_cons in Hin as [->|Hin]; [|now apply elem_of_nil in Hin]].
    + vm_compute in Hn. injection Hn as <-. reflexivity.
    + vm_compute in Hn. discriminate.
  - apply (H _ (py "v.fasta") (py "list.txt") [py ">NC_001806.1 x"; py "ACGT"]);
      vm_compute; reflexivity.
Defined.

Lemma add_canonical_accession_witness :
  _add (py "NC_001806.1") (∅, ∅)
  = Ok (∅ ∪ {[ py "NC_001806.1" ]}, ∅ ∪ {[ py "NC_001806" ]}).
Proof.
  apply (add_canonical_accession (py "NC") (py "001806") (py "1") ∅ ∅).
  repeat split; try discriminate; try (cbn; lia); repeat constructor.
Defined.

Lemma io_failure_aborts_before_summary_witness :
  (main (Namespace (py "v.fasta") (py "list.txt") (py "-") true) empty_world).1
  = Raise OSError
  /\ stderr (main (Namespace (py "v.fasta") (py "list.txt") (py "-") true)
                  empty_world).2 = [].
Proof.
  apply (io_failure_aborts_before_summary
           (Namespace (py "v.fasta") (py "list.txt") (py "-") true) empty_world).
  left. left. reflexivity.
Defined.

Lemma extract_header_accession_single_search_witness :
  re_search ACCESSION_RE (fallback_token (py "gi|12345| unnamed")) = None
  /\ extract_header_accession (py ">gi|12345| unnamed") = Ok (None, None).
Proof.
  destruct (extract_header_accession_single_search (py ">gi|12345| unnamed"))
    as (_ & H & _).
  apply H. vm_compute. reflexivity.
Defined.

(** The examples of the specification. *)

Example list_line_example :
  for_each parse_targets_line
    [py "NC 001806.1 Human herpesvirus 1, complete genome"] no_targets
  = Ok (∅ ∪ {[ py "NC_001806.1" ]}, ∅ ∪ {[ py "NC_001806" ]}).
Proof. vm_compute. reflexivity. Qed.

Example wrap_example :
  map (fun i => length (take 60 (drop i (repeat (ch "A") 130)))) (range0 130 60)
  = [60; 60; 10]%nat.
Proof. vm_compute. reflexivity. Qed.

Example kept_one_of_two :
  let w := World {[ py "list.txt" := [py "NC_001806.1"];
                    py "v.fasta" := [py ">NC_001806.1 foo"; py "ACGT";
                                     py ">NC_000001.1 bar"; py "GG"] ]}
                 same_dir (fun _ => true) (fun _ => true) [] [] in
  let run := main (Namespace (py "v.fasta") (py "list.txt") (py "-") true) w in
  run.1 = Ok 0%Z
  /\ stdout run.2 = [py ">NC_001806.1 foo" ++ newline; py "ACGT" ++ newline]
  /\ stderr run.2 = [py "[filter_fasta_by_list] Kept 1 / 2 records" ++ newline].
Proof. vm_compute. repeat split. Qed.

End Instances.

(** * Further properties of the program *)

(** ** The wrapping of a sequence *)

Section Wrapping.

Lemma range0_60 n :
  range0 n 60 = map (fun k => k * 60)%nat (seq 0 ((n + 59) / 60)).
Proof. unfold range0. do 3 f_equal. lia. Qed.

Lemma wrapped_eq (s : str) :
  wrapped s
  = map (fun k => take 60 (drop (k * 60) s)) (seq 0 ((length s + 59) / 60)).
Proof. unfold wrapped. rewrite range0_60, map_map. reflexivity. Qed.

Lemma concat_slices (s : str) n :
  concat (map (fun k => take 60 (drop (k * 60) s)) (seq 0 n)) = take (n * 60) s.
Proof.
  induction n as [|n IH]; [reflexivity|].
  rewrite seq_S, map_app, concat_app, IH. cbn [map concat Nat.add].
  rewrite app_nil_r, take_take_drop. f_equal. lia.
Qed.

Lemma chunks_cover n : (n <= (n + 59) / 60 * 60)%nat.
Proof.
  pose proof (Nat.div_mod_eq (n + 59) 60) as H.
  pose proof (Nat.mod_upper_bound (n + 59) 60). lia.
Qed.

Lemma chunks_tight n k : (k < (n + 59) / 60)%nat -> (k * 60 < n)%nat.
Proof.
  intros Hk. pose proof (Nat.div_mod_eq (n + 59) 60) as H.
  pose proof (Nat.mod_upper_bound (n + 59) 60). nia.
Qed.

Lemma wrapped_concat (s : str) : concat (wrapped s) = s.
Proof.
  rewrite wrapped_eq, concat_slices. apply take_ge, chunks_cover.
Qed.

Lemma wrapped_lookup (s : str) i c :
  wrapped s !! i = Some c ->
  c = take 60 (drop (i * 60) s) /\ (i * 60 < length s)%nat.
Proof.
  rewrite wrapped_eq, list_lookup_fmap.
  destruct (seq 0 ((length s + 59) / 60) !! i) as [k|] eqn:E; [|discriminate].
  apply lookup_seq in E as [-> Hi]. cbn. intros [= <-].
  split; [reflexivity | now apply chunks_tight].
Qed.

Lemma wrapped_length (s : str) : length (wrapped s) = ((length s + 59) / 60)%nat.
Proof. rewrite wrapped_eq, length_map. apply length_seq. Qed.

(** X1: the sequence of a kept record is printed in slices that, put
    together, are the sequence: every slice has between 1 and 60
    characters, every slice but the last has 60, and an empty sequence
    prints no slice. *)
Theorem wrapped_sequence (sequence : str) :
  concat (wrapped sequence) = sequence
  /\ length (wrapped sequence) = ((length sequence + 59) / 60)%nat
  /\ (forall i chunk,
        wrapped sequence !! i = Some chunk ->
        chunk = take 60 (drop (i * 60) sequence)
        /\ (1 <= length chunk <= 60)%nat
        /\ ((S i < length (wrapped sequence))%nat -> length chunk = 60%nat))
  /\ (wrapped sequence = [] <-> sequence = []).
Proof.
  split; [apply wrapped_concat|]. split; [apply wrapped_length|]. split.
  - intros i chunk Hc. apply wrapped_lookup in Hc as [-> Hi].
    split; [reflexivity|]. rewrite length_take, length_drop.
    split; [lia|]. rewrite wrapped_length. intros Hlast.
    apply chunks_tight in Hlast. lia.
  - split.
    + intros H. rewrite <- (wrapped_concat sequence), H. reflexivity.
    + intros ->. reflexivity.
Qed.

End Wrapping.

(** ** What a run writes *)

Section Writing.
Context {U : PyUnicode}.

Lemma write_all_app h a b w :
  write_all h (a ++ b) w = write_all h b (write_all h a w).
Proof. apply fold_left_app. Qed.

Lemma write_all_map {A} h (f : A -> str) (l : list A) w :
  fold_left (fun w a => write h (f a) w) l w = write_all h (map f l) w.
Proof.
  unfold write_all. revert w. induction l as [|a l IH]; intros w;
    [reflexivity|]. cbn [map fold_left]. apply IH.
Qed.

Lemma written_serialize h record w :
  written h record w = write_all h (serialize record) w.
Proof.
  unfold written, serialize, wrapped. rewrite write_all_map, !map_map.
  reflexivity.
Qed.

Lemma written_serialize_all h records w :
  fold_left (fun w record => written h record w) records w
  = write_all h (serialize_all records) w.
Proof.
  unfold serialize_all. revert w.
  induction records as [|record records IH]; intros w; [reflexivity|].
  cbn [fold_left map concat]. rewrite write_all_app, IH.
  now rewrite written_serialize.
Qed.

Lemma write_all_stdout lines w :
  write_all Stdout lines w
  = World (files w) (file_of w) (readable w) (writable w)
          (stdout w ++ lines) (stderr w).
Proof.
  unfold write_all. revert w. induction lines as [|line lines IH]; intros w.
  - cbn. rewrite app_nil_r. now destruct w.
  - cbn [fold_left]. rewrite IH. cbn. now rewrite <- app_assoc.
Qed.

Lemma write_all_file p lines w content :
  files w !! p = Some content ->
  write_all (File p) lines w
  = World (<[p := content ++ lines]> (files w)) (file_of w)
          (readable w) (writable w) (stdout w) (stderr w).
Proof.
  unfold write_all. revert w content.
  induction lines as [|line lines IH]; intros w content Hp.
  - cbn. rewrite app_nil_r, insert_id by assumption. now destruct w.
  - cbn [fold_left]. rewrite (IH _ (content ++ [line])).
    + cbn. rewrite <- app_assoc. cbn. f_equal.
      apply map_eq. intros q. destruct (decide (p = q)) as [<-|Hq].
      * now rewrite !lookup_insert_eq.
      * now rewrite !lookup_insert_ne, lookup_alter_ne by assumption.
    + cbn. now rewrite lookup_alter_eq, Hp.
Qed.

(** X2: a record that does not match is counted and writes nothing; a
    record that matches is counted, kept, and written as its header line
    followed by the slices of its sequence, one line each. *)
Theorem filter_fasta_record_writes (ignore_version : bool) (t : targets)
  (out_fh : handle) (header sequence : str) (kept total : nat) (w : world) :
  (record_match ignore_version t header = Ok false
   /\ filter_fasta_record ignore_version t out_fh (header, sequence)
                          (kept, total) w
      = (Ok (kept, S total), w))
  \/ (record_match ignore_version t header = Ok true
      /\ filter_fasta_record ignore_version t out_fh (header, sequence)
                             (kept, total) w
         = (Ok (S kept, S total),
            write_all out_fh
              ((header ++ newline)
                 :: map (fun chunk => chunk ++ newline) (wrapped sequence)) w)).
Proof.
  rewrite filter_fasta_record_eq, record_match_matched. cbn [fst].
  destruct (matched ignore_version t header); [right | left];
    (split; [reflexivity|]); [|reflexivity].
  now rewrite written_serialize.
Qed.

End Writing.

(** ** Runs that succeed *)

Section Success.
Context {U : PyUnicode}.

Lemma is_kept_matched ignore_version t record :
  is_kept ignore_version t record = matched ignore_version t record.1.
Proof. unfold is_kept. now rewrite record_match_matched. Qed.

Lemma kept_records_is_kept ignore_version t records :
  kept_records ignore_version t records
  = List.filter (is_kept ignore_version t) records.
Proof.
  unfold kept_records. induction records as [|record records IH];
    [reflexivity|]. cbn. now rewrite is_kept_matched, IH.
Qed.

Lemma fasta_records_eq stream : fasta_records stream = records_spec stream.
Proof.
  change (fasta_records stream) with (read_from (Reader None [] []) stream).
  now rewrite read_from_spec.
Qed.

Lemma fasta_records_length stream :
  length (fasta_records stream) = length (List.filter is_header stream).
Proof.
  rewrite fasta_records_eq. induction stream as [|line rest IH]; cbn;
    [reflexivity|]. destruct (is_header line); cbn; now rewrite IH.
Qed.

(** The run of [main] when everything opens. *)
Lemma main_success args w lines out_fh w1 fh :
  readfile w (arg_list args) = Some lines ->
  open_out (Some (arg_out args)) w = (Ok out_fh, w1) ->
  readfile w1 (arg_fasta args) = Some fh ->
  exists t,
    for_each parse_targets_line lines no_targets = Ok t
    /\ main args w
       = (Ok 0%Z,
          write Stderr
            (summary_of (arg_ignore_version args) t (fasta_records fh))
            (write_all out_fh
               (serialize_all (List.filter (is_kept (arg_ignore_version args) t)
                                           (fasta_records fh))) w1)).
Proof.
  intros Hl Ho Hf.
  destruct (parse_targets_lines_total lines no_targets) as [t Ht].
  exists t. split; [assumption|].
  rewrite main_eq, filter_fasta_eq, Hl, Ht, Ho, Hf. cbv zeta.
  rewrite written_serialize_all, kept_records_is_kept. reflexivity.
Qed.

(** X3: when the list and the FASTA file open and the output is standard
    output ([--out] empty or [-]), the run returns 0, appends the kept
    records, in the order of the file, to standard output and the summary
    to the diagnostic stream, and touches no file; the total of the
    summary is the number of lines of the FASTA file that begin with [>]. *)
Theorem main_to_stdout (args : namespace) (w : world) (lines fh : list str) :
  to_file (arg_out args) = false ->
  readfile w (arg_list args) = Some lines ->
  readfile w (arg_fasta args) = Some fh ->
  exists t,
    for_each parse_targets_line lines no_targets = Ok t
    /\ main args w
       = (Ok 0%Z,
          World (files w) (file_of w) (readable w) (writable w)
            (stdout w
               ++ serialize_all
                    (List.filter (is_kept (arg_ignore_version args) t)
                                 (fasta_records fh)))
            (stderr w
               ++ [summary_of (arg_ignore_version args) t (fasta_records fh)]))
    /\ length (fasta_records fh) = length (List.filter is_header fh).
Proof.
  intros Hout Hl Hf.
  destruct (open_out_cases (Some (arg_out args)) w)
    as [[Ho _]|(p & [= <-] & Hp & _)]; [|congruence].
  destruct (main_success args w lines Stdout w fh Hl Ho Hf) as (t & Ht & ->).
  exists t. split; [assumption|]. split; [|apply fasta_records_length].
  now rewrite write_all_stdout.
Qed.

(** X4: when the list and the FASTA file open, and the output path
    ([--out] neither empty nor [-]) may be written and names another file
    than the FASTA path does, the run returns 0 and leaves in the file that
    the output path names exactly the kept records, whatever it held
    before; standard output is not written and no other file changes. *)
Theorem main_to_file (args : namespace) (w : world) (lines fh : list str) :
  to_file (arg_out args) = true ->
  writable w (arg_out args) = true ->
  file_of w (arg_out args) <> file_of w (arg_fasta args) ->
  readfile w (arg_list args) = Some lines ->
  readfile w (arg_fasta args) = Some fh ->
  exists t,
    for_each parse_targets_line lines no_targets = Ok t
    /\ main args w
       = (Ok 0%Z,
          World (<[file_of w (arg_out args) :=
                     serialize_all
                       (List.filter (is_kept (arg_ignore_version args) t)
                                    (fasta_records fh))]> (files w))
            (file_of w) (readable w) (writable w) (stdout w)
            (stderr w
               ++ [summary_of (arg_ignore_version args) t (fasta_records fh)])).
Proof.
  intros Hout Hw Hne Hl Hf.
  destruct (open_out_cases (Some (arg_out args)) w)
    as [[_ Ho]|(p & [= <-] & _ & Ho)]; [congruence|].
  rewrite Hw in Ho.
  destruct (main_success args w lines _ _ fh Hl Ho) as (t & Ht & ->).
  - unfold readfile in *. cbn [files file_of readable].
    rewrite lookup_insert_ne by assumption. exact Hf.
  - exists t. split; [assumption|].
    erewrite write_all_file by (cbn; apply lookup_insert_eq).
    cbn. now rewrite insert_insert_eq.
Qed.

(** X5: when the list opens, the output path ([--out] neither empty nor
    [-]) may be written, the FASTA path may be read, and the two paths name
    one file, be they the same string or not, opening the output empties
    or creates that file before it is read: the run returns 0, reports
    [Kept 0 / 0] and leaves the file empty, whatever it held. *)
Theorem main_output_over_fasta (args : namespace) (w : world) (lines : list str) :
  file_of w (arg_out args) = file_of w (arg_fasta args) ->
  to_file (arg_out args) = true ->
  writable w (arg_out args) = true ->
  readable w (arg_fasta args) = true ->
  readfile w (arg_list args) = Some lines ->
  main args w
  = (Ok 0%Z,
     World (<[file_of w (arg_fasta args) := []]> (files w)) (file_of w)
           (readable w) (writable w)
           (stdout w) (stderr w ++ [summary 0 0 ++ newline])).
Proof.
  intros Heq Hout Hw Hr Hl.
  destruct (open_out_cases (Some (arg_out args)) w)
    as [[_ Ho]|(p & [= <-] & _ & Ho)]; [congruence|].
  rewrite Hw in Ho.
  destruct (main_success args w lines _ _ [] Hl Ho) as (t & Ht & ->).
  - unfold readfile. cbn [files file_of readable].
    rewrite Heq, lookup_insert_eq, Hr. reflexivity.
  - cbn. now rewrite Heq.
Qed.

Lemma matched_ignore_version t header :
  matched false t header = true -> matched true t header = true.
Proof.
  unfold matched. destruct (extract_spec header) as [wv nv]. cbn.
  rewrite orb_false_r. now intros ->.
Qed.

Lemma filter_length_le {A} (f g : A -> bool) (l : list A) :
  (forall a, f a = true -> g a = true) ->
  (length (List.filter f l) <= length (List.filter g l) <= length l)%nat.
Proof.
  intros H. induction l as [|a l IH]; cbn; [lia|].
  destruct (f a) eqn:E; [rewrite (H a E); cbn; lia|].
  destruct (g a); cbn; lia.
Qed.

(** X6: a run that ignores versions and the same run with exact versions
    fail alike or both succeed; they count the same total, and ignoring
    versions keeps at least the records that exact versions keep, never
    more than the total. *)
Theorem ignore_version_keeps_more (fasta_path list_path : str)
  (out_path : option str) (w : world) :
  match filter_fasta fasta_path list_path out_path false w,
        filter_fasta fasta_path list_path out_path true w with
  | (Ok (kept, total), _), (Ok (kept', total'), _) =>
      total = total' /\ (kept <= kept' <= total)%nat
  | (Raise e, w1), (Raise e', w1') => e = e' /\ w1 = w1'
  | _, _ => False
  end.
Proof.
  rewrite !filter_fasta_eq.
  destruct (readfile w list_path) as [lines|]; [|now split].
  destruct (for_each parse_targets_line lines no_targets) as [t|e]; [|now split].
  destruct (open_out out_path w) as [[out_fh|e] w1]; [|now split].
  destruct (readfile w1 fasta_path) as [fh|]; [|now split].
  cbv zeta. split; [reflexivity|]. unfold kept_records.
  apply filter_length_le. intros record. apply matched_ignore_version.
Qed.

End Success.

(** ** The targets of a list *)

Section ListTargets.
Context {U : PyUnicode}.

(** What the lines of a list put in the two sets. *)
Lemma parse_targets_lines_elem lines t0 t :
  for_each parse_targets_line lines t0 = Ok t ->
  (forall v, v ∈ t.1 <->
     v ∈ t0.1
     \/ exists raw, raw ∈ lines
          /\ line_candidate raw ≫= normalize = Some v /\ contains "." v = true)
  /\ (forall u, u ∈ t.2 <->
        u ∈ t0.2
        \/ exists raw c, raw ∈ lines
             /\ line_candidate raw ≫= normalize = Some c
             /\ u = if contains "." c then before "." c else c).
Proof.
  revert t0. induction lines as [|raw lines IH]; intros t0; cbn [for_each].
  - intros [= <-]. split; intros x; (split; [now left|]).
    + intros [H|(raw & H & _)]; [assumption | now apply elem_of_nil in H].
    + intros [H|(raw & c & H & _)]; [assumption | now apply elem_of_nil in H].
  - rewrite parse_targets_line_normalized. cbn. intros H.
    destruct (IH _ H) as [H1 H2]. clear IH H. split.
    + intros v. rewrite H1. clear H1 H2.
      destruct (line_candidate raw ≫= normalize) as [c|] eqn:E;
        cbn [add_normalized fst snd].
      * destruct (contains "." c) eqn:Ec; cbn [fst]; split.
        -- intros [[Hv|Hv%elem_of_singleton]%elem_of_union|(r & Hr & Hc)].
           ++ now left.
           ++ subst v. right. exists raw. split; [apply list_elem_of_here|].
              now split.
           ++ right. exists r. split; [now apply list_elem_of_further|exact Hc].
        -- intros [Hv|(r & [->|Hr]%elem_of_cons & Hc & Hd)].
           ++ left. apply elem_of_union. now left.
           ++ left. apply elem_of_union. right. apply elem_of_singleton.
              congruence.
           ++ right. exists r. now repeat split.
        -- intros [Hv|(r & Hr & Hc)]; [now left|]. right. exists r.
           split; [now apply list_elem_of_further | exact Hc].
        -- intros [Hv|(r & [->|Hr]%elem_of_cons & Hc & Hd)]; [now left| |].
           ++ congruence.
           ++ right. exists r. now repeat split.
      * split.
        -- intros [Hv|(r & Hr & Hc)]; [now left|]. right. exists r.
           split; [now apply list_elem_of_further | exact Hc].
        -- intros [Hv|(r & [->|Hr]%elem_of_cons & Hc & Hd)]; [now left| |].
           ++ congruence.
           ++ right. exists r. now repeat split.
    + intros u. rewrite H2. clear H1 H2.
      destruct (line_candidate raw ≫= normalize) as [c|] eqn:E;
        cbn [add_normalized fst snd].
      * assert ((add_normalized (Some c) t0).2
                = t0.2 ∪ {[ if contains "." c then before "." c else c ]}) as Hn
          by (cbn; now destruct (contains "." c)).
        cbn [add_normalized] in Hn. rewrite Hn. clear Hn. split.
        -- intros [[Hu|Hu%elem_of_singleton]%elem_of_union|(r & c' & Hr & Hc)].
           ++ now left.
           ++ right. exists raw, c. split; [apply list_elem_of_here|].
              now split.
           ++ right. exists r, c'.
              split; [now apply list_elem_of_further | exact Hc].
        -- intros [Hu|(r & c' & [->|Hr]%elem_of_cons & Hc & Hd)].
           ++ left. apply elem_of_union. now left.
           ++ left. apply elem_of_union. right. apply elem_of_singleton.
              rewrite E in Hc. injection Hc as <-. exact Hd.
           ++ right. exists r, c'. now repeat split.
      * split.
        -- intros [Hu|(r & c' & Hr & Hc)]; [now left|]. right. exists r, c'.
           split; [now apply list_elem_of_further | exact Hc].
        -- intros [Hu|(r & c' & [->|Hr]%elem_of_cons & Hc & Hd)]; [now left| |].
           ++ congruence.
           ++ right. exists r, c'. now repeat split.
Qed.

Lemma skipped_no_candidate raw : skipped raw = true -> line_candidate raw = None.
Proof.
  unfold skipped, line_candidate. intros H.
  destruct (truthy (strip raw)); [|reflexivity]. cbn in *. now rewrite H.
Qed.

(** The targets of two lists, when every line of the first that counts is
    a line of the second. *)
Lemma parse_targets_lines_subset lines lines' t t' :
  (forall raw, skipped raw = false -> raw ∈ lines -> raw ∈ lines') ->
  for_each parse_targets_line lines no_targets = Ok t ->
  for_each parse_targets_line lines' no_targets = Ok t' ->
  t.1 ⊆ t'.1 /\ t.2 ⊆ t'.2.
Proof.
  intros Hsub [H1 H2]%parse_targets_lines_elem [H1' H2']%parse_targets_lines_elem.
  assert (forall raw c, raw ∈ lines ->
            line_candidate raw ≫= normalize = Some c -> raw ∈ lines') as Hin.
  { intros raw c Hr Hc. apply Hsub; [|assumption].
    destruct (skipped raw) eqn:E; [|reflexivity].
    apply skipped_no_candidate in E. rewrite E in Hc. discriminate. }
  split.
  - intros v [Hv|(raw & Hr & Hc & Hd)]%H1; [now apply not_elem_of_empty in Hv|].
    apply H1'. right. exists raw. split; [|now split]. eapply Hin; eassumption.
  - intros u [Hu|(raw & c & Hr & Hc & Hd)]%H2; [now apply not_elem_of_empty in Hu|].
    apply H2'. right. exists raw, c. split; [|now split]. eapply Hin; eassumption.
Qed.

Lemma memberb_subset (a : option str) (s s' : gset str) :
  s ⊆ s' -> memberb a s = true -> memberb a s' = true.
Proof.
  intros Hs. destruct a as [acc|]; [|discriminate]. cbn.
  rewrite !bool_decide_eq_true. apply Hs.
Qed.

Lemma matched_subset ignore_version (t t' : targets) header :
  t.1 ⊆ t'.1 -> t.2 ⊆ t'.2 ->
  matched ignore_version t header = true ->
  matched ignore_version t' header = true.
Proof.
  intros H1 H2. unfold matched. destruct (extract_spec header) as [wv nv].
  rewrite !orb_true_iff, !andb_true_iff.
  intros [H|[Hi H]]; [left | right; split; [assumption|]];
    eapply memberb_subset; eassumption.
Qed.

(** X7: the targets of a list depend only on which lines it holds, blank
    lines and comments apart: two lists with the same other lines, in any
    order and any number of times, give the same two sets. *)
Theorem parse_targets_order_irrelevant (lines lines' : list str) :
  (forall raw, skipped raw = false -> raw ∈ lines <-> raw ∈ lines') ->
  for_each parse_targets_line lines no_targets
  = for_each parse_targets_line lines' no_targets.
Proof.
  intros H.
  destruct (parse_targets_lines_total lines no_targets) as [[W N] Ht].
  destruct (parse_targets_lines_total lines' no_targets) as [[W' N'] Ht'].
  rewrite Ht, Ht'.
  destruct (parse_targets_lines_subset lines lines' _ _
              (fun raw Hs => proj1 (H raw Hs)) Ht Ht') as [H1 H2].
  destruct (parse_targets_lines_subset lines' lines _ _
              (fun raw Hs => proj2 (H raw Hs)) Ht' Ht) as [H1' H2'].
  cbn in *. do 2 f_equal; apply set_eq; intros x; split; auto.
Qed.

(** X8: lines added to a list only add targets: every record kept with a
    list is kept with a longer one, for either setting of
    [ignore_version]. *)
Theorem parse_targets_monotone (lines lines' : list str) :
  (forall raw, raw ∈ lines -> raw ∈ lines') ->
  exists t t',
    for_each parse_targets_line lines no_targets = Ok t
    /\ for_each parse_targets_line lines' no_targets = Ok t'
    /\ t.1 ⊆ t'.1 /\ t.2 ⊆ t'.2
    /\ forall ignore_version header,
         record_match ignore_version t header = Ok true ->
         record_match ignore_version t' header = Ok true.
Proof.
  intros H.
  destruct (parse_targets_lines_total lines no_targets) as [t Ht].
  destruct (parse_targets_lines_total lines' no_targets) as [t' Ht'].
  exists t, t'. split; [assumption|]. split; [assumption|].
  destruct (parse_targets_lines_subset lines lines' t t'
              (fun raw _ => H raw) Ht Ht') as [H1 H2].
  split; [assumption|]. split; [assumption|].
  intros ignore_version header. rewrite !record_match_matched.
  intros [= Hm]. f_equal. eapply matched_subset; eassumption.
Qed.

(** X9: every versioned target of a list is a non-empty string that holds
    a dot and no unversioned target holds one, so the two sets of a list
    are disjoint. *)
Theorem parse_targets_shapes (lines : list str) :
  exists t,
    for_each parse_targets_line lines no_targets = Ok t
    /\ (forall v, v ∈ t.1 -> contains "." v = true /\ v <> [])
    /\ (forall u, u ∈ t.2 -> contains "." u = false)
    /\ t.1 ## t.2.
Proof.
  destruct (parse_targets_lines_total lines no_targets) as [t Ht].
  exists t. split; [assumption|].
  apply parse_targets_lines_elem in Ht as [H1 H2].
  assert (forall v, v ∈ t.1 -> contains "." v = true) as Hv.
  { intros v [Hv|(raw & _ & _ & Hd)]%H1; [now apply not_elem_of_empty in Hv|].
    assumption. }
  assert (forall u, u ∈ t.2 -> contains "." u = false) as Hu.
  { intros u [Hu|(raw & c & _ & _ & ->)]%H2; [now apply not_elem_of_empty in Hu|].
    destruct (contains "." c) eqn:E; [|assumption].
    apply contains_false, before_no_sep. }
  split; [|split; [assumption|]].
  - intros v Hin. split; [now apply Hv|]. intros ->.
    apply Hv in Hin. discriminate.
  - intros x Hx1 Hx2. apply Hv in Hx1. apply Hu in Hx2. congruence.
Qed.

End ListTargets.

(** ** Accessions in list lines and in headers *)

Section Occurrences.
Context {U : PyUnicode}.

Lemma drop_while_app_stop {A} (f : A -> bool) (x y : list A) :
  match y with c :: _ => f c = false | [] => True end ->
  drop_while f (x ++ y) = drop_while f x ++ y.
Proof.
  intros Hy. induction x as [|c x IH]; cbn.
  - destruct y as [|c y]; [reflexivity|]. cbn. now rewrite Hy.
  - destruct (f c); [assumption | reflexivity].
Qed.

(** Stripping the right end stops at a character that is kept. *)
Lemma rstrip_by_app_keep f (x post : str) c :
  f c = false -> rstrip_by f ((x ++ [c]) ++ post) = (x ++ [c]) ++ rstrip_by f post.
Proof.
  intros Hc. unfold rstrip_by.
  rewrite rev_app_distr, drop_while_app_stop, rev_app_distr, rev_involutive.
  - reflexivity.
  - rewrite rev_app_distr. cbn. assumption.
Qed.

Lemma isspace_not_isdecimal c : isspace c = true -> isdecimal c = false.
Proof.
  intros H. destruct (isdecimal c) eqn:E; [|reflexivity].
  apply isdecimal_not_isspace in E. congruence.
Qed.

Lemma all_in_upper_no_space P : all_in upper P -> none_in (is_char " ") P.
Proof.
  intros H. eapply Forall_impl; [exact H|]. cbn. intros c Hc.
  apply upper_bounds in Hc. unfold is_char, ch. cbn. apply N.eqb_neq. lia.
Qed.

Lemma all_in_isdecimal_no_space D : all_in isdecimal D -> none_in (is_char " ") D.
Proof.
  intros H. eapply Forall_impl; [exact H|]. cbn. intros c Hc.
  destruct (is_char " " c) eqn:E; [|reflexivity]. apply is_char_eq in E.
  subst c. apply isdecimal_not_isspace in Hc. rewrite isspace_space in Hc.
  discriminate.
Qed.

(** A line that begins with an accession, written with a space or an
    underscore after its prefix and followed by no further digit, yields
    that accession as its candidate. *)
Lemma line_candidate_accession_line P D V sep post :
  accession_parts P D V -> sep = ch " " \/ sep = ch "_" ->
  take_while isdecimal post = [] ->
  line_candidate (P ++ sep :: D ++ py "." ++ V ++ post) = Some (accession P D V).
Proof.
  intros Hp Hsep Hpost. pose proof Hp as ((HP & _) & HPu & HD & HDd & HV & HVd).
  destruct P as [|p0 P]; [cbn in HP; lia|].
  destruct (exists_last HV) as (V0 & v & ->).
  assert (isspace p0 = false /\ p0 <> ch "#") as [Hp0 Hhash].
  { inversion HPu as [|? ? Hc _]; subst. split; [now apply upper_not_isspace|].
    apply upper_bounds in Hc. intros ->. unfold ch in Hc. cbn in Hc. lia. }
  assert (isspace v = false) as Hv.
  { apply Forall_app in HVd as [_ Hv]. inversion Hv; subst.
    now apply isdecimal_not_isspace. }
  assert (strip ((p0 :: P) ++ sep :: D ++ py "." ++ (V0 ++ [v]) ++ post)
          = (p0 :: P) ++ sep :: D ++ py "." ++ (V0 ++ [v])
              ++ rstrip_by isspace post) as Hstrip.
  { unfold strip, strip_by, lstrip_by. cbn [app]. rewrite drop_while_stop by assumption.
    replace (p0 :: P ++ sep :: D ++ py "." ++ (V0 ++ [v]) ++ post)
      with (((p0 :: P ++ sep :: D ++ py "." ++ V0) ++ [v]) ++ post)
      by (by simplify_list_eq).
    rewrite rstrip_by_app_keep by assumption. by simplify_list_eq. }
  unfold line_candidate. rewrite Hstrip. clear Hstrip Hv HV.
  remember (V0 ++ [v]) as V eqn:EV. clear EV V0 v.
  set (line := (p0 :: P) ++ sep :: D ++ py "." ++ V ++ rstrip_by isspace post).
  assert (truthy line && negb (startswith line (py "#")) = true) as ->.
  { subst line. cbn. apply negb_true_iff, andb_false_iff. left.
    now apply N.eqb_neq. }
  unfold candidate.
  assert (forall x y, replace " " "_" (x ++ y)
                      = replace " " "_" x ++ replace " " "_" y) as Happ
    by (intros x y; apply map_app).
  assert (replace " " "_" line
          = accession (p0 :: P) D V
              ++ replace " " "_" (rstrip_by isspace post)) as ->.
  { subst line. unfold accession.
    change (sep :: D ++ py "." ++ V ++ rstrip_by isspace post)
      with ([sep] ++ D ++ py "." ++ V ++ rstrip_by isspace post).
    rewrite !Happ, <- !app_assoc.
    rewrite (replace_id _ _ (p0 :: P)) by now apply all_in_upper_no_space.
    rewrite (replace_id _ _ D), (replace_id _ _ V)
      by now apply all_in_isdecimal_no_space.
    do 2 f_equal. destruct Hsep as [->| ->]; reflexivity. }
  rewrite re_search_accession; [reflexivity | assumption|].
  destruct (rstrip_by_split isspace post) as (b & Hb & _).
  destruct (rstrip_by isspace post) as [|c r]; [reflexivity|].
  rewrite Hb in Hpost. cbn in Hpost.
  destruct (isdecimal c) eqn:Ec; [discriminate|].
  destruct underscore_facts as (_ & Hu & _).
  cbn. destruct (is_char " " c); [now rewrite Hu | now rewrite Ec].
Qed.

Lemma parse_targets_lines_accession lines t P D V raw :
  accession_parts P D V -> raw ∈ lines ->
  line_candidate raw = Some (accession P D V) ->
  for_each parse_targets_line lines no_targets = Ok t ->
  accession P D V ∈ t.1 /\ P ++ py "_" ++ D ∈ t.2.
Proof.
  intros Hp Hin Hc [H1 H2]%parse_targets_lines_elem.
  assert (line_candidate raw ≫= normalize = Some (accession P D V)) as Hn
    by (rewrite Hc; now apply normalize_accession).
  split.
  - apply H1. right. exists raw. repeat split; try assumption.
    apply contains_dot_accession.
  - apply H2. right. exists raw, (accession P D V).
    repeat split; try assumption.
    now rewrite contains_dot_accession, before_accession.
Qed.

(** X10: a list line that begins with an accession, its prefix and digits
    joined by an underscore or by a space, and followed by anything that
    does not begin with a digit (free text, a newline, nothing), puts
    PREFIX_DIGITS.VERSION in the versioned set and PREFIX_DIGITS in the
    unversioned set. *)
Theorem list_line_accession (lines : list str) (P D V post : str) (sep : char) :
  accession_parts P D V ->
  sep = ch " " \/ sep = ch "_" ->
  take_while isdecimal post = [] ->
  P ++ sep :: D ++ py "." ++ V ++ post ∈ lines ->
  exists t,
    for_each parse_targets_line lines no_targets = Ok t
    /\ accession P D V ∈ t.1
    /\ P ++ py "_" ++ D ∈ t.2.
Proof.
  intros Hp Hsep Hpost Hin.
  destruct (parse_targets_lines_total lines no_targets) as [t Ht].
  exists t. split; [assumption|].
  eapply parse_targets_lines_accession; try eassumption.
  now apply line_candidate_accession_line.
Qed.

Lemma extract_spec_single header :
  extract_spec header = found (re_search ACCESSION_RE (remainder header)).
Proof.
  unfold extract_spec.
  destruct (re_search ACCESSION_RE (remainder header)) eqn:E; [reflexivity|].
  now rewrite (fallback_never_matches _ E).
Qed.

Lemma extract_spec_header_accession P D V pre rest :
  accession_parts P D V -> none_in upper pre ->
  take_while isdecimal rest = [] ->
  extract_spec (py ">" ++ pre ++ accession P D V ++ rest)
  = (Some (accession P D V), Some (P ++ py "_" ++ D)).
Proof.
  intros Hp Hpre Hrest.
  rewrite extract_spec_single, re_search_header_accession by assumption.
  rewrite Hrest, app_nil_r. cbn [found]. now rewrite before_accession.
Qed.

(** X11: with a list that holds a line for PREFIX_DIGITS.VERSION, a record
    whose header has PREFIX_DIGITS with any version, after text without
    capital letters and before anything that does not begin with a digit,
    is kept when versions are ignored; with the same version it is kept
    for either setting. *)
Theorem listed_accession_is_kept (lines : list str) (P D V V' post pre rest : str)
  (sep : char) :
  accession_parts P D V -> accession_parts P D V' ->
  sep = ch " " \/ sep = ch "_" ->
  take_while isdecimal post = [] ->
  P ++ sep :: D ++ py "." ++ V ++ post ∈ lines ->
  none_in upper pre -> take_while isdecimal rest = [] ->
  exists t,
    for_each parse_targets_line lines no_targets = Ok t
    /\ record_match true t (py ">" ++ pre ++ accession P D V' ++ rest) = Ok true
    /\ (V' = V ->
        record_match false t (py ">" ++ pre ++ accession P D V' ++ rest)
        = Ok true).
Proof.
  intros Hp Hp' Hsep Hpost Hin Hpre Hrest.
  destruct (parse_targets_lines_total lines no_targets) as [t Ht].
  exists t. split; [assumption|].
  destruct (parse_targets_lines_accession lines t P D V _ Hp Hin
              (line_candidate_accession_line P D V sep post Hp Hsep Hpost) Ht)
    as [H1 H2].
  rewrite !record_match_matched. unfold matched.
  rewrite extract_spec_header_accession by assumption. cbn [memberb].
  split.
  - f_equal. apply orb_true_iff. right. now apply bool_decide_eq_true.
  - intros ->. f_equal. apply orb_true_iff. left. now apply bool_decide_eq_true.
Qed.

(** X12: a record whose header holds no canonical accession, for instance
    one without any capital letter, is never kept, whatever the targets
    and the setting of [ignore_version]. *)
Theorem header_without_accession_never_kept (header : str) :
  (re_search ACCESSION_RE (remainder header) = None ->
   extract_header_accession header = Ok (None, None)
   /\ forall ignore_version t, record_match ignore_version t header = Ok false)
  /\ (none_in upper (remainder header) ->
      re_search ACCESSION_RE (remainder header) = None).
Proof.
  split.
  - intros Hnone. rewrite extract_header_accession_spec, extract_spec_single, Hnone.
    split; [reflexivity|]. intros ignore_version t.
    rewrite record_match_matched. unfold matched.
    rewrite extract_spec_single, Hnone. cbn. now rewrite andb_false_r.
  - intros Hu. rewrite <- (app_nil_r (remainder header)).
    now rewrite re_search_skip.
Qed.

Lemma substring_remainder (m header : str) :
  substring m (remainder header) -> substring m header.
Proof.
  destruct header as [|c h]; [trivial|]. cbn.
  destruct (is_char ">" c); [|trivial].
  intros (a & b & ->). now exists (c :: a), b.
Qed.

(** X13: a record is kept only through a canonical accession that occurs
    in its header: the accession is a versioned target, or versions are
    ignored and its part before the dot is an unversioned target.  Targets
    of any other shape select nothing. *)
Theorem kept_only_by_canonical_accession (ignore_version : bool) (t : targets)
  (header : str) :
  record_match ignore_version t header = Ok true ->
  exists P D V,
    accession_parts P D V
    /\ substring (accession P D V) header
    /\ (accession P D V ∈ t.1
        \/ (ignore_version = true /\ P ++ py "_" ++ D ∈ t.2)).
Proof.
  rewrite record_match_matched. unfold matched. rewrite extract_spec_single.
  destruct (re_search ACCESSION_RE (remainder header)) as [acc|] eqn:E.
  - apply re_search_canonical in E as [(P & D & V & Hp & ->) Hsub].
    cbn [found memberb]. rewrite before_accession by assumption.
    intros [= H]. exists P, D, V. split; [assumption|].
    split; [now apply substring_remainder|].
    apply orb_true_iff in H as [H|[Hi H]%andb_true_iff].
    + left. now apply bool_decide_eq_true in H.
    + right. split; [assumption|]. now apply bool_decide_eq_true in H.
  - cbn. rewrite andb_false_r. discriminate.
Qed.

End Occurrences.

(** ** Which accession of a header is extracted *)

Section Leftmost.
Context {U : PyUnicode}.

Lemma matches_repeat cls lo hi p pos X rest m' :
  all_in cls X -> (lo <= length X)%nat -> within hi (length X) ->
  matches p (pos + length X) rest m' ->
  matches (Repeat cls lo hi :: p) pos (X ++ rest) (X ++ m').
Proof.
  intros Hall Hlo Hhi Hm. cbn. exists (length X), m'.
  rewrite take_app_length, drop_app_length, length_app.
  repeat split; try assumption; lia.
Qed.

Lemma all_in_singleton a : all_in (is_char a) [ch a].
Proof. constructor; [apply is_char_ch | constructor]. Qed.

(** The pattern matches every canonical accession, wherever it stands. *)
Lemma canonical_matches pos m rest :
  canonical m -> matches ACCESSION_RE pos (m ++ rest) m.
Proof.
  intros (P & D & V & ((HP1 & HP2) & HPu & HD & HDd & HV & HVd) & ->).
  unfold accession, ACCESSION_RE, One, Plus. rewrite <- !app_assoc.
  change (py "_") with [ch "_"]. change (py ".") with [ch "."].
  apply matches_repeat; [assumption | lia | exact HP2 |].
  apply matches_repeat; [apply all_in_singleton | cbn; lia | cbn; lia |].
  apply matches_repeat;
    [assumption | destruct D; [congruence | cbn; lia] | exact I |].
  apply matches_repeat; [apply all_in_singleton | cbn; lia | cbn; lia |].
  rewrite <- (app_nil_r V) at 2.
  apply matches_repeat;
    [assumption | destruct V; [congruence | cbn; lia] | exact I |].
  reflexivity.
Qed.

(** The match at a position takes every digit of the version. *)
Lemma match_here_version_maximal pos s acc :
  match_here ACCESSION_RE pos s = Some acc ->
  exists rest, s = acc ++ rest /\ take_while isdecimal rest = [].
Proof.
  intros Hm. pose proof Hm as Hm'.
  apply match_here_sound, matches_accession in Hm'
    as [(P & D & V & Hp & ->) [rest ->]].
  exists rest. split; [reflexivity|].
  assert (accession_parts P D (V ++ take_while isdecimal rest)) as Hp'.
  { destruct Hp as (H1 & H2 & H3 & H4 & H5 & H6).
    split; [assumption|]. repeat split; try assumption.
    - destruct V; [congruence | discriminate].
    - apply Forall_app. split; [assumption | apply take_while_all]. }
  assert (accession P D V ++ rest
          = accession P D (V ++ take_while isdecimal rest)
              ++ drop_while isdecimal rest) as Hs.
  { unfold accession. rewrite <- !app_assoc. now rewrite take_drop_while. }
  rewrite Hs, (match_here_accession pos P D _ _ Hp') in Hm
    by apply take_while_drop_while_nil.
  injection Hm as Hm. unfold accession in Hm.
  rewrite !app_assoc in Hm. apply (f_equal length) in Hm.
  rewrite length_app in Hm.
  destruct (take_while isdecimal rest); [reflexivity | cbn in Hm; lia].
Qed.

(** X14: the accession extracted from a header is the leftmost canonical
    accession of the header without its leading [>], with every digit of
    its version: no canonical accession starts before it and no digit
    follows it. *)
Theorem extracted_accession_is_leftmost (header acc : str) (nv : option str) :
  extract_header_accession header = Ok (Some acc, nv) ->
  exists a b,
    remainder header = a ++ acc ++ b
    /\ canonical acc
    /\ nv = Some (before "." acc)
    /\ take_while isdecimal b = []
    /\ forall a' m b',
         remainder header = a' ++ m ++ b' -> canonical m ->
         (length a <= length a')%nat.
Proof.
  rewrite extract_header_accession_spec, extract_spec_single.
  destruct (re_search ACCESSION_RE (remainder header)) as [m0|] eqn:E;
    [|discriminate].
  cbn [found]. intros [= -> <-].
  pose proof E as [Hcan _]%re_search_canonical.
  apply search_from_Some in E as (a & b0 & Hs & Hm & Hfirst).
  destruct (match_here_version_maximal _ _ _ Hm) as (b & -> & Hb).
  exists a, b. repeat split; try assumption.
  intros a' m b' Hs' Hm'.
  destruct (le_lt_dec (length a) (length a')) as [|Hlt]; [assumption|].
  exfalso. specialize (Hfirst a' (m ++ b') Hs' Hlt).
  destruct (match_here_complete ACCESSION_RE (0 + length a') (m ++ b') m
              (canonical_matches _ m b' Hm')) as [x Hx].
  congruence.
Qed.

End Leftmost.

(** ** The records of the reader *)

Section Records.
Context {U : PyUnicode}.

Lemma drop_while_idem {A} (f : A -> bool) (s : list A) :
  drop_while f (drop_while f s) = drop_while f s.
Proof.
  induction s as [|c s IH]; [reflexivity|]. cbn.
  destruct (f c) eqn:E; [assumption|]. cbn. now rewrite E.
Qed.

Lemma rstrip_by_idem f (s : str) : rstrip_by f (rstrip_by f s) = rstrip_by f s.
Proof. unfold rstrip_by. now rewrite rev_involutive, drop_while_idem. Qed.

Lemma rstrip_by_drop f (x : str) c :
  f c = true -> rstrip_by f (x ++ [c]) = rstrip_by f x.
Proof. intros Hc. unfold rstrip_by. rewrite rev_app_distr. cbn. now rewrite Hc. Qed.

Lemma rstrip_by_none f (s : str) : none_in f s -> rstrip_by f s = s.
Proof.
  intros H. unfold rstrip_by. rewrite drop_while_id by now apply Forall_rev.
  apply rev_involutive.
Qed.

Lemma drop_while_app_more {A} (f : A -> bool) (x y : list A) :
  drop_while f x <> [] -> drop_while f (x ++ y) = drop_while f x ++ y.
Proof.
  induction x as [|c x IH]; cbn; [congruence|].
  destruct (f c); [assumption | reflexivity].
Qed.

(** The newline that ends a line does not count when the line is
    stripped. *)
Lemma strip_newline (body : str) : strip (body ++ newline) = strip body.
Proof.
  unfold strip, strip_by, lstrip_by, newline.
  destruct (drop_while isspace body) as [|c r] eqn:E.
  - pose proof (take_drop_while isspace body) as Hb.
    rewrite E, app_nil_r in Hb.
    rewrite <- Hb, drop_while_app_all by apply take_while_all.
    cbn. now rewrite isspace_newline.
  - rewrite drop_while_app_more by (rewrite E; discriminate).
    rewrite E. apply rstrip_by_drop, isspace_newline.
Qed.

Lemma strip_none_in f (s : str) : none_in f s -> none_in f (strip s).
Proof. apply substring_none_in, strip_by_substring. Qed.

(** A record of the stream comes from a header line and from the lines
    that follow it. *)
Lemma records_spec_elem stream h sequence :
  (h, sequence) ∈ records_spec stream ->
  exists line body,
    line ∈ stream /\ is_header line = true
    /\ h = rstrip_by (is_char "010") line
    /\ sequence = concat (map strip body)
    /\ forall l, l ∈ body -> l ∈ stream.
Proof.
  induction stream as [|line rest IH]; cbn [records_spec].
  - intros H. now apply elem_of_nil in H.
  - assert ((h, sequence) ∈ records_spec rest ->
            exists line0 body,
              line0 ∈ line :: rest /\ is_header line0 = true
              /\ h = rstrip_by (is_char "010") line0
              /\ sequence = concat (map strip body)
              /\ forall l, l ∈ body -> l ∈ line :: rest) as Hrest.
    { intros (line0 & body & H1 & H2 & H3 & H4 & H5)%IH.
      exists line0, body. repeat split; try assumption.
      - now apply list_elem_of_further.
      - intros l Hl. now apply list_elem_of_further, H5. }
    destruct (is_header line) eqn:E; [|exact Hrest].
    intros [[= -> ->]|H]%elem_of_cons; [|now apply Hrest].
    exists line, (take_while sequence_line rest).
    repeat split; try assumption; [apply list_elem_of_here|].
    intros l Hl. apply list_elem_of_further.
    rewrite <- (take_drop_while sequence_line rest). apply elem_of_app. now left.
Qed.

Lemma header_kept_by_rstrip line :
  is_header line = true ->
  startswith (rstrip_by (is_char "010") line) (py ">") = true.
Proof.
  unfold is_header. intros H.
  destruct (rstrip_by_split (is_char "010") line) as (b & Hb & Hall).
  destruct line as [|c r]; [discriminate|].
  assert (c = ch ">") as ->.
  { cbn in H. apply andb_true_iff in H as [H _]. now apply N.eqb_eq in H. }
  destruct (rstrip_by (is_char "010") (ch ">" :: r)) as [|c' r'].
  - cbn in Hb. subst b. inversion Hall as [|? ? Hc _]; subst. discriminate.
  - injection Hb as <- _. cbn. rewrite N.eqb_refl. now destruct r'.
Qed.

Lemma text_line_parts line :
  text_line line ->
  none_in (is_char "010") (rstrip_by (is_char "010") line)
  /\ none_in (is_char "010") (strip line).
Proof.
  intros (body & Hb & [->| ->]).
  - split; [now rewrite rstrip_by_none | now apply strip_none_in].
  - unfold newline at 1. rewrite rstrip_by_drop by apply is_char_ch.
    rewrite strip_newline.
    split; [now rewrite rstrip_by_none | now apply strip_none_in].
Qed.

(** X15: every record the reader yields has a header that begins with [>]
    and does not end with a newline; when the stream is the lines of a
    text file, neither the header nor the sequence of a record holds a
    newline. *)
Theorem fasta_records_headers (stream : list str) (h sequence : str) :
  (h, sequence) ∈ fasta_records stream ->
  startswith h (py ">") = true
  /\ rstrip_by (is_char "010") h = h
  /\ (Forall text_line stream ->
      none_in (is_char "010") h /\ none_in (is_char "010") sequence).
Proof.
  rewrite fasta_records_eq.
  intros (line & body & Hin & Hh & -> & -> & Hbody)%records_spec_elem.
  split; [now apply header_kept_by_rstrip|].
  split; [apply rstrip_by_idem|].
  intros Hstream. rewrite Forall_forall in Hstream. split.
  - now apply text_line_parts, Hstream.
  - apply Forall_concat, Forall_forall. intros x (l & -> & Hl)%list_elem_of_fmap.
    now apply text_line_parts, Hstream, Hbody.
Qed.

End Records.

(** ** Reading the output back *)

Section ReadBack.
Context {U : PyUnicode}.

Lemma records_spec_record line body rest :
  is_header line = true ->
  Forall (fun l => is_header l = false) body ->
  match rest with l :: _ => is_header l = true | [] => True end ->
  records_spec (line :: body ++ rest)
  = (rstrip_by (is_char "010") line, concat (map strip body))
      :: records_spec rest.
Proof.
  intros Hline Hbody Hrest. rewrite (records_spec_header _ _ Hline).
  assert (Forall (fun l => sequence_line l = true) body) as Hseq
    by (eapply Forall_impl; [exact Hbody|]; cbn; unfold sequence_line;
        now intros l ->).
  f_equal.
  - do 3 f_equal. rewrite take_while_app_all by assumption.
    destruct rest as [|l rest]; cbn; [apply app_nil_r|].
    unfold sequence_line. rewrite Hrest. cbn. apply app_nil_r.
  - rewrite <- (records_spec_skip (body ++ rest)), drop_while_app_all by assumption.
    apply records_spec_skip.
Qed.

Lemma wrapped_chunks (P : char -> Prop) (s : str) :
  Forall P s ->
  Forall (fun chunk => exists c r, chunk = c :: r /\ Forall P chunk) (wrapped s).
Proof.
  intros Hs. apply Forall_forall. intros chunk (i & Hi)%list_elem_of_lookup.
  apply wrapped_lookup in Hi as [-> Hlt].
  assert (Forall P (take 60 (drop (i * 60) s))) as Hc
    by now apply Forall_take, Forall_drop.
  destruct (drop (i * 60) s) as [|c r] eqn:E.
  - apply (f_equal length) in E. rewrite length_drop in E. cbn in E. lia.
  - exists c, (take 59 r). split; [reflexivity | exact Hc].
Qed.

Lemma serialize_sequence_lines (s : str) :
  none_in isspace s -> none_in (is_char ">") s ->
  Forall (fun l => is_header l = false) (map (fun chunk => chunk ++ newline) (wrapped s))
  /\ concat (map strip (map (fun chunk => chunk ++ newline) (wrapped s))) = s.
Proof.
  intros Hsp Hgt. split.
  - apply Forall_forall. intros l (chunk & -> & Hin)%list_elem_of_fmap.
    pose proof (wrapped_chunks _ s Hgt) as Hc. rewrite Forall_forall in Hc.
    destruct (Hc chunk Hin) as (c & r & -> & Hall).
    inversion Hall as [|? ? Hh _]; subst. unfold is_header. cbn.
    unfold is_char in Hh. now rewrite Hh.
  - rewrite <- (wrapped_concat s) at 2. f_equal. rewrite map_map.
    pose proof (wrapped_chunks _ s Hsp) as Hc.
    induction Hc as [|chunk chunks (c & r & _ & Hall) _ IH]; [reflexivity|].
    cbn [map]. rewrite IH, strip_newline. f_equal.
    now apply strip_by_id.
Qed.

Lemma serialize_all_head record records :
  startswith record.1 (py ">") = true ->
  match serialize_all (record :: records) with
  | l :: _ => is_header l = true
  | [] => True
  end.
Proof.
  intros H. cbn. unfold is_header. destruct record as [[|c h] s]; [discriminate|].
  cbn in *. apply andb_true_iff in H as [-> _]. now destruct h.
Qed.

(** What the program writes for records reads back as those records. *)
Lemma serialize_all_read_back records :
  (forall h s, (h, s) ∈ records ->
     startswith h (py ">") = true /\ rstrip_by (is_char "010") h = h
     /\ none_in isspace s /\ none_in (is_char ">") s) ->
  fasta_records (serialize_all records) = records.
Proof.
  rewrite fasta_records_eq.
  induction records as [|[h s] records IH]; intros H; [reflexivity|].
  destruct (H h s (list_elem_of_here _ _)) as (Hh & Hnl & Hsp & Hgt).
  destruct (serialize_sequence_lines s Hsp Hgt) as [Hbody Hseq].
  change (serialize_all ((h, s) :: records))
    with ((h ++ newline) :: map (fun chunk => chunk ++ newline) (wrapped s)
            ++ serialize_all records).
  rewrite records_spec_record.
  - rewrite Hseq, IH by (intros; apply H; now apply list_elem_of_further).
    unfold newline. rewrite rstrip_by_drop by apply is_char_ch. now rewrite Hnl.
  - pose proof (serialize_all_head (h, s) [] Hh) as Hhead. exact Hhead.
  - assumption.
  - destruct records as [|[h' s'] records]; [exact I|].
    apply (serialize_all_head (h', s') records).
    apply (H h' s'), list_elem_of_further, list_elem_of_here.
Qed.

Lemma filter_idem {A} (f : A -> bool) (l : list A) :
  List.filter f (List.filter f l) = List.filter f l.
Proof.
  induction l as [|a l IH]; [reflexivity|]. cbn.
  destruct (f a) eqn:E; [cbn; now rewrite E, IH | assumption].
Qed.

Lemma text_line_newline (body : str) :
  none_in (is_char "010") body -> text_line (body ++ newline).
Proof. intros H. exists body. split; [assumption | now right]. Qed.

Lemma none_in_isspace_no_newline (s : str) :
  none_in isspace s -> none_in (is_char "010") s.
Proof.
  intros H. eapply Forall_impl; [exact H|]. cbn. intros c Hc.
  destruct (is_char "010" c) eqn:E; [|reflexivity].
  apply is_char_eq in E. subst c. rewrite isspace_newline in Hc. discriminate.
Qed.

(** X16: what a run writes is itself a FASTA text of the kept records: when
    the FASTA file is read line by line and the sequences of the kept
    records hold no whitespace and no [>], every line written is a line of
    text, reading the output back yields exactly the kept records, and
    filtering that output with the same targets keeps every one of them. *)
Theorem output_reads_back (ignore_version : bool) (t : targets) (fh : list str) :
  let kept := List.filter (is_kept ignore_version t) (fasta_records fh) in
  Forall text_line fh ->
  (forall h s, (h, s) ∈ kept -> none_in isspace s /\ none_in (is_char ">") s) ->
  Forall text_line (serialize_all kept)
  /\ fasta_records (serialize_all kept) = kept
  /\ List.filter (is_kept ignore_version t) (fasta_records (serialize_all kept))
     = kept.
Proof.
  intros kept Hlines Hseq.
  assert (forall h s, (h, s) ∈ kept ->
            startswith h (py ">") = true /\ rstrip_by (is_char "010") h = h
            /\ none_in (is_char "010") h) as Hhead.
  { intros h s Hin.
    assert ((h, s) ∈ fasta_records fh) as Hrec.
    { unfold kept in Hin. apply list_elem_of_In, filter_In in Hin as [Hin _].
      now apply list_elem_of_In. }
    rewrite fasta_records_eq in Hrec.
    apply records_spec_elem in Hrec as (line & body & Hl & Hh & -> & _).
    split; [now apply header_kept_by_rstrip|]. split; [apply rstrip_by_idem|].
    rewrite Forall_forall in Hlines. now apply text_line_parts, Hlines. }
  assert (fasta_records (serialize_all kept) = kept) as Hback.
  { apply serialize_all_read_back. intros h s Hin.
    destruct (Hhead _ _ Hin) as (H1 & H2 & _). destruct (Hseq _ _ Hin) as [H3 H4].
    now repeat split. }
  split; [|split; [assumption | rewrite Hback; apply filter_idem]].
  unfold serialize_all. apply Forall_concat, Forall_forall.
  intros ls ([h s] & -> & Hin)%list_elem_of_fmap. unfold serialize. cbn [fst snd].
  destruct (Hhead _ _ Hin) as (_ & _ & Hnl). destruct (Hseq _ _ Hin) as [Hsp _].
  constructor; [now apply text_line_newline|].
  apply Forall_forall. intros l (chunk & -> & Hc)%list_elem_of_fmap.
  apply text_line_newline.
  pose proof (wrapped_chunks _ s (none_in_isspace_no_newline s Hsp)) as Hall.
  rewrite Forall_forall in Hall. now destruct (Hall chunk Hc) as (_ & _ & _ & ?).
Qed.

End ReadBack.

(** ** Runs with nothing to keep, and what a failed run leaves behind *)

Section Edges.
Context {U : PyUnicode}.

Lemma skipped_lines_no_targets lines t :
  Forall (fun raw => skipped raw = true) lines ->
  for_each parse_targets_line lines t = Ok t.
Proof.
  induction 1 as [|raw lines Hraw _ IH]; [reflexivity|]. cbn [for_each].
  rewrite parse_targets_line_candidate, (skipped_no_candidate _ Hraw). exact IH.
Qed.

Lemma matched_no_targets ignore_version header :
  matched ignore_version no_targets header = false.
Proof.
  unfold matched. destruct (extract_spec header) as [[wv|] [nv|]]; cbn;
    rewrite ?andb_false_r; try reflexivity;
    rewrite ?orb_false_l, ?orb_false_r, ?andb_false_iff;
    try right; apply bool_decide_eq_false, not_elem_of_empty.
Qed.

Lemma filter_none {A} (f : A -> bool) (l : list A) :
  (forall a, f a = false) -> List.filter f l = [].
Proof.
  intros H. induction l as [|a l IH]; [reflexivity|]. cbn. now rewrite H.
Qed.

Lemma records_spec_no_header stream :
  Forall (fun l => is_header l = false) stream -> records_spec stream = [].
Proof. induction 1 as [|l stream Hl _ IH]; cbn; [reflexivity | now rewrite Hl]. Qed.

(** X17: a list with only blank lines and comments, or a FASTA file with no
    line that begins with [>], keeps nothing, for either setting of
    [ignore_version]: a run to standard output returns 0, writes no
    record, and its summary reports 0 kept out of the number of header
    lines. *)
Theorem nothing_to_keep (args : namespace) (w : world) (lines fh : list str) :
  to_file (arg_out args) = false ->
  readfile w (arg_list args) = Some lines ->
  readfile w (arg_fasta args) = Some fh ->
  Forall (fun raw => skipped raw = true) lines
  \/ Forall (fun l => is_header l = false) fh ->
  main args w
  = (Ok 0%Z,
     World (files w) (file_of w) (readable w) (writable w) (stdout w)
           (stderr w
              ++ [summary 0 (length (List.filter is_header fh)) ++ newline])).
Proof.
  intros Hout Hl Hf Hnone.
  destruct (open_out_cases (Some (arg_out args)) w)
    as [[Ho _]|(p & [= <-] & Hp & _)]; [|congruence].
  destruct (main_success args w lines Stdout w fh Hl Ho Hf) as (t & Ht & ->).
  assert (List.filter (is_kept (arg_ignore_version args) t) (fasta_records fh)
          = []) as Hk.
  { destruct Hnone as [Hs|Hh].
    - rewrite (skipped_lines_no_targets _ _ Hs) in Ht. injection Ht as <-.
      apply filter_none. intros record.
      now rewrite is_kept_matched, matched_no_targets.
    - now rewrite fasta_records_eq, records_spec_no_header. }
  unfold summary_of. rewrite Hk, fasta_records_length, write_all_stdout.
  cbn. now rewrite app_nil_r.
Qed.

(** X18: a run whose list path names no file or may not be read fails and
    changes nothing.  When the list opens but the FASTA path names no file
    or may not be read, and the output path ([--out] neither empty nor [-])
    may be written and names another file than the FASTA path does, the run
    fails after it has opened its output: the file that the output path
    names is left empty, whatever it held, and nothing else changes. *)
Theorem failed_run_leaves (args : namespace) (w : world) :
  (unavailable w (arg_list args) -> main args w = (Raise OSError, w))
  /\ (forall lines,
        readfile w (arg_list args) = Some lines ->
        unavailable w (arg_fasta args) ->
        to_file (arg_out args) = true ->
        writable w (arg_out args) = true ->
        file_of w (arg_out args) <> file_of w (arg_fasta args) ->
        main args w
        = (Raise OSError,
           World (<[file_of w (arg_out args) := []]> (files w)) (file_of w)
                 (readable w) (writable w) (stdout w) (stderr w))).
Proof.
  split.
  - intros Hu%unavailable_readfile.
    now rewrite main_eq, filter_fasta_eq, Hu.
  - intros lines Hl Hu Hout Hw Hne.
    destruct (parse_targets_lines_total lines no_targets) as [t Ht].
    destruct (open_out_cases (Some (arg_out args)) w)
      as [[_ Ho]|(p & [= <-] & _ & Ho)]; [congruence|].
    rewrite Hw in Ho.
    rewrite main_eq, filter_fasta_eq, Hl, Ht, Ho.
    rewrite readfile_after_open_w; [reflexivity | assumption | now left].
Qed.

End Edges.

(** ** List entries without a version *)

Section Unlisted.
Context {U : PyUnicode}.

Lemma re_search_needs_dot (s : str) :
  contains "." s = false -> re_search ACCESSION_RE s = None.
Proof.
  intros H. destruct (re_search ACCESSION_RE s) as [m|] eqn:E; [|reflexivity].
  apply re_search_canonical in E as [(P & D & V & _ & ->) Hsub].
  apply contains_false in H.
  apply (substring_none_in _ _ _ Hsub), contains_false in H.
  now rewrite contains_dot_accession in H.
Qed.

Lemma rstrip_by_all f (s : str) : all_in f s -> rstrip_by f s = [].
Proof.
  intros H. unfold rstrip_by.
  rewrite <- (app_nil_r (rev s)), drop_while_app_all by now apply Forall_rev.
  reflexivity.
Qed.

Lemma strip_trailing (x ws : str) :
  none_in isspace x -> all_in isspace ws -> strip (x ++ ws) = x.
Proof.
  intros Hx Hws. destruct x as [|c x]; [now apply strip_blank|].
  unfold strip, strip_by, lstrip_by. inversion Hx as [|? ? Hc _]; subst.
  cbn [app]. rewrite drop_while_stop by assumption.
  destruct (@exists_last _ (c :: x) ltac:(discriminate)) as (x0 & l & E).
  change (c :: x ++ ws) with ((c :: x) ++ ws). rewrite E.
  assert (isspace l = false) as Hl.
  { rewrite E in Hx. apply Forall_app in Hx as [_ Hx]. now inversion Hx. }
  rewrite rstrip_by_app_keep by assumption.
  now rewrite rstrip_by_all, app_nil_r.
Qed.

Lemma split_one_token (s : str) :
  s <> [] -> none_in isspace s -> split s = [s].
Proof.
  intros Hne Hs. destruct s as [|c s]; [congruence|].
  inversion Hs as [|? ? Hc Hs']; subst. rewrite split_token by assumption.
  assert (all_in nonspace s) as Hn
    by (eapply Forall_impl; [exact Hs'|]; cbn; unfold nonspace; now intros d ->).
  rewrite take_while_id by assumption.
  rewrite <- (app_nil_r s), drop_while_app_all by assumption. reflexivity.
Qed.

(** The unversioned form PREFIX_DIGITS of an accession: its characters. *)
Lemma unversioned_chars P D V :
  accession_parts P D V ->
  P ++ py "_" ++ D <> []
  /\ none_in isspace (P ++ py "_" ++ D)
  /\ none_in (is_char " ") (P ++ py "_" ++ D)
  /\ contains "|" (P ++ py "_" ++ D) = false
  /\ contains "." (P ++ py "_" ++ D) = false
  /\ startswith (P ++ py "_" ++ D) (py "#") = false.
Proof.
  intros Hp. pose proof Hp as ((HP & _) & HPu & _).
  pose proof (accession_no_space P D V Hp) as Hsp.
  assert (substring (P ++ py "_" ++ D) (accession P D V)) as Hsub.
  { exists [], (py "." ++ V). unfold accession. cbn. now rewrite <- !app_assoc. }
  split; [destruct P; [cbn in HP; lia | discriminate]|].
  split; [now apply (substring_none_in _ _ _ Hsub)|].
  split.
  { apply (substring_none_in _ _ _ Hsub), accession_avoids;
      try assumption; try reflexivity; discriminate. }
  split.
  { apply contains_false, (substring_none_in _ _ _ Hsub), accession_avoids;
      try assumption; try reflexivity; discriminate. }
  split.
  { rewrite <- (before_accession P D V Hp). apply contains_false, before_no_sep. }
  destruct P as [|c P]; [cbn in HP; lia|]. inversion HPu as [|? ? Hc _]; subst.
  cbn. apply upper_bounds in Hc. apply andb_false_iff. left.
  apply N.eqb_neq. unfold ch. cbn. lia.
Qed.

Lemma line_candidate_unversioned P D V ws :
  accession_parts P D V -> all_in isspace ws ->
  line_candidate ((P ++ py "_" ++ D) ++ ws) ≫= normalize = Some (P ++ py "_" ++ D).
Proof.
  intros Hp Hws.
  destruct (unversioned_chars P D V Hp) as (Hne & Hsp & Hno & Hbar & Hdot & Hhash).
  set (u := P ++ py "_" ++ D) in *.
  assert (strip u = u) as Hu by now apply strip_by_id.
  assert (strip (u ++ ws) = u) as Hstrip by now apply strip_trailing.
  assert (truthy u = true) as Ht by now destruct u.
  unfold line_candidate. rewrite Hstrip, Ht, Hhash. cbn [andb negb].
  unfold candidate. rewrite replace_id by assumption.
  rewrite re_search_needs_dot, split_one_token by assumption.
  cbn [mbind option_bind]. unfold normalize. rewrite Hu, replace_id by assumption.
  rewrite Hbar. unfold search_or_self.
  rewrite re_search_needs_dot by assumption. now rewrite Ht.
Qed.

(** X19: let PREFIX_DIGITS.VERSION be a canonical accession.  A list line
    that is PREFIX_DIGITS alone, followed by whitespace only, holds no
    canonical accession and is one token, so it is the first-token
    fallback that handles it: the line adds PREFIX_DIGITS to the
    unversioned targets and leaves the versioned targets as they were.
    With such a line in the list, PREFIX_DIGITS is an unversioned target,
    and a record is kept, when versions are ignored, if the accession of
    its header, the first match of the pattern, is PREFIX_DIGITS.VERSION;
    so it is for a header that has PREFIX_DIGITS.VERSION after text without
    capital letters and before anything that does not begin with a digit.
    A header that holds another accession first is not covered. *)
Theorem unversioned_list_entry (P D V ws : str) (t : targets) :
  accession_parts P D V -> all_in isspace ws ->
  re_search ACCESSION_RE (replace " " "_" (strip ((P ++ py "_" ++ D) ++ ws)))
  = None
  /\ split (strip ((P ++ py "_" ++ D) ++ ws)) = [P ++ py "_" ++ D]
  /\ parse_targets_line ((P ++ py "_" ++ D) ++ ws) t
     = Ok (t.1, t.2 ∪ {[ P ++ py "_" ++ D ]})
  /\ (forall lines, (P ++ py "_" ++ D) ++ ws ∈ lines ->
        exists t',
          for_each parse_targets_line lines no_targets = Ok t'
          /\ P ++ py "_" ++ D ∈ t'.2
          /\ (forall header,
                re_search ACCESSION_RE (remainder header)
                = Some (accession P D V) ->
                record_match true t' header = Ok true)
          /\ (forall pre rest,
                none_in upper pre -> take_while isdecimal rest = [] ->
                record_match true t' (py ">" ++ pre ++ accession P D V ++ rest)
                = Ok true)).
Proof.
  intros Hp Hws.
  destruct (unversioned_chars P D V Hp) as (Hne & Hsp & Hno & Hbar & Hdot & Hhash).
  assert (strip ((P ++ py "_" ++ D) ++ ws) = P ++ py "_" ++ D) as Hstrip
    by now apply strip_trailing.
  split; [rewrite Hstrip, replace_id by assumption;
          now apply re_search_needs_dot|].
  split; [rewrite Hstrip; now apply split_one_token|].
  split.
  { rewrite parse_targets_line_normalized,
      (line_candidate_unversioned P D V) by assumption.
    cbn [add_normalized]. now rewrite Hdot. }
  intros lines Hin.
  destruct (parse_targets_lines_total lines no_targets) as [t' Ht].
  exists t'. split; [assumption|].
  assert (P ++ py "_" ++ D ∈ t'.2) as Hu.
  { apply parse_targets_lines_elem in Ht as [_ H2]. apply H2. right.
    exists ((P ++ py "_" ++ D) ++ ws), (P ++ py "_" ++ D).
    split; [assumption|]. split; [now apply (line_candidate_unversioned P D V)|].
    now rewrite Hdot. }
  split; [assumption|]. split.
  - intros header Hs. rewrite record_match_matched. unfold matched.
    rewrite extract_spec_single, Hs. cbn [found memberb].
    rewrite before_accession by assumption.
    f_equal. apply orb_true_iff. right. now apply bool_decide_eq_true.
  - intros pre rest Hpre Hrest. rewrite record_match_matched. unfold matched.
    rewrite extract_spec_header_accession by assumption. cbn [memberb].
    f_equal. apply orb_true_iff. right. now apply bool_decide_eq_true.
Qed.

End Unlisted.

(** ** The further properties at sample inputs *)

Section Samples.

Lemma sample_parts :
  accession_parts (py "NC") (py "001806") (py "1")
  /\ accession_parts (py "NC") (py "001806") (py "2")
  /\ accession_parts (py "NC") (py "000001") (py "7").
Proof.
  repeat split; try discriminate; try (cbn; lia); repeat constructor.
Defined.

Lemma main_to_stdout_witness :
  (main (sample_args "-" true) sample_world).1 = Ok 0%Z
  /\ length (stdout (main (sample_args "-" true) sample_world).2) = 4%nat.
Proof.
  destruct (main_to_stdout (sample_args "-" true) sample_world
              sample_list sample_fasta) as (t & Ht & -> & _);
    [vm_compute; reflexivity..|].
  vm_compute in Ht. injection Ht as <-. vm_compute. split; reflexivity.
Defined.

Lemma main_to_file_witness :
  (main (sample_args "old.fasta" true) sample_world).1 = Ok 0%Z
  /\ stdout (main (sample_args "old.fasta" true) sample_world).2 = [].
Proof.
  destruct (main_to_file (sample_args "old.fasta" true) sample_world
              sample_list sample_fasta) as (t & _ & ->);
    [vm_compute; reflexivity | vm_compute; reflexivity
     | intros E; vm_compute in E; discriminate E
     | vm_compute; reflexivity | vm_compute; reflexivity |].
  split; reflexivity.
Defined.

Lemma main_output_over_fasta_witness :
  (main (sample_args "./v.fasta" true) sample_world).1 = Ok 0%Z
  /\ files (main (sample_args "./v.fasta" true) sample_world).2 !! py "v.fasta"
     = Some []
  /\ stderr (main (sample_args "./v.fasta" true) sample_world).2
     = [py "[filter_fasta_by_list] Kept 0 / 0 records" ++ newline].
Proof.
  rewrite (main_output_over_fasta (sample_args "./v.fasta" true) sample_world
             sample_list); [|vm_compute; reflexivity..].
  split; [reflexivity|]. split; vm_compute; reflexivity.
Defined.

Lemma parse_targets_order_irrelevant_witness :
  for_each parse_targets_line [py "NC_001806.1"; py "NC_000001"] no_targets
  = for_each parse_targets_line
      [py "NC_000001"; py "NC_001806.1"; py "NC_000001"] no_targets.
Proof.
  apply parse_targets_order_irrelevant. intros raw _.
  rewrite !elem_of_cons, !elem_of_nil. tauto.
Defined.

Lemma parse_targets_monotone_witness :
  exists t t',
    for_each parse_targets_line [py "NC_001806.1"] no_targets = Ok t
    /\ for_each parse_targets_line [py "NC_000001"; py "NC_001806.1"] no_targets
       = Ok t'
    /\ t.1 ⊆ t'.1 /\ t.2 ⊆ t'.2.
Proof.
  destruct (parse_targets_monotone [py "NC_001806.1"]
              [py "NC_000001"; py "NC_001806.1"])
    as (t & t' & H1 & H2 & H3 & H4 & _).
  - intros raw. rewrite !elem_of_cons, !elem_of_nil. tauto.
  - exists t, t'. repeat split; assumption.
Defined.

Lemma list_line_accession_witness :
  exists t,
    for_each parse_targets_line sample_list no_targets = Ok t
    /\ accession (py "NC") (py "001806") (py "1") ∈ t.1
    /\ py "NC" ++ py "_" ++ py "001806" ∈ t.2.
Proof.
  apply (list_line_accession sample_list (py "NC") (py "001806") (py "1")
           (py " Human herpesvirus 1, complete genome" ++ newline) (ch " ")).
  - apply sample_parts.
  - left. reflexivity.
  - reflexivity.
  - apply list_elem_of_here.
Defined.

Lemma listed_accession_is_kept_witness :
  exists t,
    for_each parse_targets_line sample_list no_targets = Ok t
    /\ record_match true t
         (py ">" ++ py "ref|" ++ accession (py "NC") (py "001806") (py "2")
            ++ py "| Human herpesvirus 1") = Ok true.
Proof.
  destruct (listed_accession_is_kept sample_list (py "NC") (py "001806")
              (py "1") (py "2")
              (py " Human herpesvirus 1, complete genome" ++ newline)
              (py "ref|") (py "| Human herpesvirus 1") (ch " "))
    as (t & Ht & Hm & _).
  - apply sample_parts.
  - apply sample_parts.
  - left. reflexivity.
  - reflexivity.
  - apply list_elem_of_here.
  - repeat constructor.
  - reflexivity.
  - exists t. split; assumption.
Defined.

Lemma kept_only_by_canonical_accession_witness :
  exists P D V,
    accession_parts P D V
    /\ substring (accession P D V) (py ">ref|NC_000001.7| other")
    /\ (accession P D V ∈ sample_targets.1
        \/ (true = true /\ P ++ py "_" ++ D ∈ sample_targets.2)).
Proof.
  apply (kept_only_by_canonical_accession true sample_targets
           (py ">ref|NC_000001.7| other")).
  vm_compute. reflexivity.
Defined.

Lemma extracted_accession_is_leftmost_witness :
  exists a b,
    remainder (py ">ABCD_12.34 and NC_000001.7") = a ++ py "BCD_12.34" ++ b
    /\ canonical (py "BCD_12.34")
    /\ Some (py "BCD_12") = Some (before "." (py "BCD_12.34"))
    /\ take_while isdecimal b = []
    /\ forall a' m b',
         remainder (py ">ABCD_12.34 and NC_000001.7") = a' ++ m ++ b' ->
         canonical m -> (length a <= length a')%nat.
Proof.
  apply (extracted_accession_is_leftmost (py ">ABCD_12.34 and NC_000001.7")
           (py "BCD_12.34") (Some (py "BCD_12"))).
  vm_compute. reflexivity.
Defined.

Lemma sample_text_lines : Forall text_line sample_fasta.
Proof.
  repeat (constructor;
          [eexists; split; [|right; reflexivity]; repeat constructor|]).
  constructor.
Defined.

Lemma fasta_records_headers_witness :
  startswith (py ">NC_001806.2 Human herpesvirus 1") (py ">") = true
  /\ rstrip_by (is_char "010") (py ">NC_001806.2 Human herpesvirus 1")
     = py ">NC_001806.2 Human herpesvirus 1"
  /\ (Forall text_line sample_fasta ->
      none_in (is_char "010") (py ">NC_001806.2 Human herpesvirus 1")
      /\ none_in (is_char "010") (py "ACGTAC")).
Proof.
  apply (fasta_records_headers sample_fasta).
  vm_compute. apply list_elem_of_here.
Defined.

Lemma output_reads_back_witness :
  fasta_records
    (serialize_all
       (List.filter (is_kept true ({[ py "NC_001806.1" ]}, {[ py "NC_001806" ]}))
                    (fasta_records sample_fasta)))
  = List.filter (is_kept true ({[ py "NC_001806.1" ]}, {[ py "NC_001806" ]}))
                (fasta_records sample_fasta).
Proof.
  destruct (output_reads_back true ({[ py "NC_001806.1" ]}, {[ py "NC_001806" ]})
              sample_fasta) as (_ & H & _).
  - apply sample_text_lines.
  - intros h s Hin. vm_compute in Hin.
    apply elem_of_cons in Hin as [[= -> ->]|Hin];
      [|now apply elem_of_nil in Hin].
    split; repeat constructor.
  - exact H.
Defined.

Lemma nothing_to_keep_witness :
  (main (Namespace (py "v.fasta") (py "notes.txt") (py "-") true)
        (World {[ py "notes.txt" := [py "# nothing yet" ++ newline; newline];
                  py "v.fasta" := sample_fasta ]}
               same_dir (fun _ => true) (fun _ => true) [] [])).1 = Ok 0%Z.
Proof.
  rewrite (nothing_to_keep _ _ [py "# nothing yet" ++ newline; newline]
             sample_fasta); [reflexivity | vm_compute; reflexivity..|].
  left. repeat constructor.
Defined.

Lemma unversioned_list_entry_witness :
  parse_targets_line ((py "NC" ++ py "_" ++ py "000001") ++ newline)
                     sample_targets
  = Ok (sample_targets.1,
        sample_targets.2 ∪ {[ py "NC" ++ py "_" ++ py "000001" ]})
  /\ exists t,
       for_each parse_targets_line sample_list no_targets = Ok t
       /\ record_match true t
            (py ">" ++ py "ref|" ++ accession (py "NC") (py "000001") (py "7")
               ++ py "| other") = Ok true.
Proof.
  destruct (unversioned_list_entry (py "NC") (py "000001") (py "7") newline
              sample_targets) as (_ & _ & Hline & H).
  - apply sample_parts.
  - repeat constructor.
  - split; [exact Hline|].
    destruct (H sample_list) as (t & Ht & _ & _ & Hrec).
    + apply list_elem_of_further, list_elem_of_further, list_elem_of_here.
    + exists t. split; [exact Ht|]. apply Hrec; [repeat constructor | reflexivity].
Defined.

Lemma header_without_accession_never_kept_witness :
  extract_header_accession (py ">gi|12345| unnamed") = Ok (None, None)
  /\ forall ignore_version t,
       record_match ignore_version t (py ">gi|12345| unnamed") = Ok false.
Proof.
  apply (header_without_accession_never_kept (py ">gi|12345| unnamed")).
  vm_compute. reflexivity.
Defined.

Lemma failed_run_leaves_witness :
  main (Namespace (py "missing.fasta") (py "list.txt") (py "old.fasta") true)
       sample_world
  = (Raise OSError,
     World (<[py "old.fasta" := []]> (files sample_world))
           (file_of sample_world) (readable sample_world)
           (writable sample_world) [] []).
Proof.
  apply (failed_run_leaves
           (Namespace (py "missing.fasta") (py "list.txt") (py "old.fasta") true)
           sample_world) with (lines := sample_list).
  - vm_compute. reflexivity.
  - left. vm_compute. reflexivity.
  - vm_compute. reflexivity.
  - vm_compute. reflexivity.
  - intros E. vm_compute in E. discriminate E.
Defined.

End Samples.
